(** * Style checker: the AST rule-evaluation engine

    Shallow embedding of [assignment2/functional_style_checker.py] (the
    functional checker) and of the naming tests of
    [assignment1/custom_style_checker.py] (the class-based checker).

    The names of a tree are modelled as [string], each character
    standing for the code point of the same number, so the trees cover
    the names over the code points U+0000..U+00FF.  On that range
    [str.isupper], [str.islower] and [str.lower] are the functions
    [isupper], [islower] and [lower] of [Py]; the functions on all of
    [str], over every code point, are in [Unicode], and the ones of
    [Py] are proved to be their restriction. *)

From Stdlib Require Import Ascii String.
From stdpp Require Import base decidable list sorting strings gmap pretty
  relations.

Local Open Scope string_scope.
#[local] Set Warnings "-register-all".

(** ** Characters and strings

    The characters of the tree model's names: code points below 256.
    [isupper], [islower], [lower_char] and [lower] are the restriction
    to them of the functions of [Unicode] further down. *)

Module Py.

(** [between lo hi c]: the code point of [c] lies in [lo..hi]. *)
Definition between (lo hi : N) (c : ascii) : bool :=
  (N.leb lo (N_of_ascii c) && N.leb (N_of_ascii c) hi)%bool.

(** [c.isupper()] for a one-character string: A-Z and the capital
    letters U+00C0..U+00DE of Latin-1 (U+00D7 is the multiplication sign). *)
Definition isupper (c : ascii) : bool :=
  (between 65 90 c
   || (between 192 222 c && negb (N.eqb (N_of_ascii c) 215)))%bool.

(** [c.islower()] for a one-character string: a-z, the ordinal
    indicators U+00AA and U+00BA, the micro sign U+00B5 and the small
    letters U+00DF..U+00FF of Latin-1 (U+00F7 is the division sign). *)
Definition islower (c : ascii) : bool :=
  (between 97 122 c
   || N.eqb (N_of_ascii c) 170
   || N.eqb (N_of_ascii c) 181
   || N.eqb (N_of_ascii c) 186
   || (between 223 255 c && negb (N.eqb (N_of_ascii c) 247)))%bool.

(** The lowercase mapping of one character: capital letters move up by
    32, every other character is left alone. *)
Definition lower_char (c : ascii) : ascii :=
  if isupper c then ascii_of_N (N_of_ascii c + 32) else c.

(** [s.lower()]. *)
Fixpoint lower (s : string) : string :=
  match s with
  | EmptyString => EmptyString
  | String c s' => String (lower_char c) (lower s')
  end.

(** The characters of a string, as iteration over a [str] yields them. *)
Fixpoint chars (s : string) : list ascii :=
  match s with
  | EmptyString => []
  | String c s' => c :: chars s'
  end.

(** [sep.join(xs)]. *)
Fixpoint join (sep : string) (xs : list string) : string :=
  match xs with
  | [] => ""
  | [x] => x
  | x :: rest => x ++ sep ++ join sep rest
  end.

(** Truthiness of a [str]: the empty string is false. *)
Definition truthy (s : string) : bool :=
  match s with EmptyString => false | _ => true end.

(** [s1 != s2]. *)
Definition str_ne (s1 s2 : string) : bool := negb (String.eqb s1 s2).

(** ["_" in s] / [c in s] for a one-character needle. *)
Definition contains (c : ascii) (s : string) : bool :=
  existsb (Ascii.eqb c) (chars s).

Definition underscore : ascii := "_"%char.

End Py.

(** ** Naming-convention helpers (assignment2) *)

(** [not (name and name[0].isupper() and "_" not in name)] *)
Definition _violates_camel (name : string) : bool :=
  negb (match name with
        | EmptyString => false
        | String c0 _ => Py.isupper c0 && negb (Py.contains Py.underscore name)
        end).

(** [name != name.lower() or any(c.isupper() for c in name if c != "_")] *)
Definition _violates_snake (name : string) : bool :=
  Py.str_ne name (Py.lower name)
  || existsb Py.isupper
       (filter (fun c => c ≠ Py.underscore) (Py.chars name)).

(** ** Naming tests of the class-based checker (assignment1) *)

Module A1.

(** [not node.name[0].isupper()]; indexing an empty name raises. *)
Definition class_violation (name : string) : option bool :=
  match name with
  | EmptyString => None
  | String c0 _ => Some (negb (Py.isupper c0))
  end.

(** [not all(x.islower() or x == '_' for x in node.name)
     and node.name != 'lower'] *)
Definition function_violation (name : string) : bool :=
  negb (forallb (fun x => Py.islower x || Ascii.eqb x Py.underscore)
          (Py.chars name))
  && Py.str_ne name "lower".

End A1.

(** ** Names over all of Unicode

    A [str] is a sequence of code points.  The tables are those of the
    Unicode Character Database 14.0.0, which CPython 3.11 uses; the
    functions follow [Objects/unicodeobject.c].  The functions of
    [Py] above are their restriction to the code points below 256. *)

Module Unicode.

(** [c] is one of [lo], [lo + step], ... up to [hi] for a row
    [(lo, hi, step)] of the table. *)
Definition in_table (tab : list (N * N * N)) (c : N) : bool :=
  existsb (fun row : N * N * N =>
             let '(lo, hi, step) := row in
             N.leb lo c && N.leb c hi && N.eqb ((c - lo) mod step) 0)%N
    tab.

(** The code points with the property Uppercase: [c.isupper()] for a
    one-character string. *)
Definition uppercase_table : list (N * N * N) :=
  [
    (0x41, 0x5A, 1); (0xC0, 0xD6, 1); (0xD8, 0xDE, 1); (0x100, 0x136, 2);
    (0x139, 0x147, 2); (0x14A, 0x178, 2); (0x179, 0x17D, 2);
    (0x181, 0x182, 1); (0x184, 0x186, 2); (0x187, 0x189, 2);
    (0x18A, 0x18B, 1); (0x18E, 0x191, 1); (0x193, 0x194, 1);
    (0x196, 0x198, 1); (0x19C, 0x19D, 1); (0x19F, 0x1A0, 1);
    (0x1A2, 0x1A6, 2); (0x1A7, 0x1A9, 2); (0x1AC, 0x1AE, 2);
    (0x1AF, 0x1B1, 2); (0x1B2, 0x1B3, 1); (0x1B5, 0x1B7, 2);
    (0x1B8, 0x1B8, 1); (0x1BC, 0x1BC, 1); (0x1C4, 0x1C4, 1);
    (0x1C7, 0x1C7, 1); (0x1CA, 0x1CA, 1); (0x1CD, 0x1DB, 2);
    (0x1DE, 0x1EE, 2); (0x1F1, 0x1F1, 1); (0x1F4, 0x1F6, 2);
    (0x1F7, 0x1F8, 1); (0x1FA, 0x232, 2); (0x23A, 0x23B, 1);
    (0x23D, 0x23E, 1); (0x241, 0x243, 2); (0x244, 0x246, 1);
    (0x248, 0x24E, 2); (0x370, 0x372, 2); (0x376, 0x376, 1);
    (0x37F, 0x37F, 1); (0x386, 0x388, 2); (0x389, 0x38A, 1);
    (0x38C, 0x38E, 2); (0x38F, 0x391, 2); (0x392, 0x3A1, 1);
    (0x3A3, 0x3AB, 1); (0x3CF, 0x3CF, 1); (0x3D2, 0x3D4, 1);
    (0x3D8, 0x3EE, 2); (0x3F4, 0x3F4, 1); (0x3F7, 0x3F9, 2);
    (0x3FA, 0x3FA, 1); (0x3FD, 0x42F, 1); (0x460, 0x480, 2);
    (0x48A, 0x4C0, 2); (0x4C1, 0x4CD, 2); (0x4D0, 0x52E, 2);
    (0x531, 0x556, 1); (0x10A0, 0x10C5, 1); (0x10C7, 0x10C7, 1);
    (0x10CD, 0x10CD, 1); (0x13A0, 0x13F5, 1); (0x1C90, 0x1CBA, 1);
    (0x1CBD, 0x1CBF, 1); (0x1E00, 0x1E94, 2); (0x1E9E, 0x1EFE, 2);
    (0x1F08, 0x1F0F, 1); (0x1F18, 0x1F1D, 1); (0x1F28, 0x1F2F, 1);
    (0x1F38, 0x1F3F, 1); (0x1F48, 0x1F4D, 1); (0x1F59, 0x1F5F, 2);
    (0x1F68, 0x1F6F, 1); (0x1FB8, 0x1FBB, 1); (0x1FC8, 0x1FCB, 1);
    (0x1FD8, 0x1FDB, 1); (0x1FE8, 0x1FEC, 1); (0x1FF8, 0x1FFB, 1);
    (0x2102, 0x2102, 1); (0x2107, 0x2107, 1); (0x210B, 0x210D, 1);
    (0x2110, 0x2112, 1); (0x2115, 0x2115, 1); (0x2119, 0x211D, 1);
    (0x2124, 0x212A, 2); (0x212B, 0x212D, 1); (0x2130, 0x2133, 1);
    (0x213E, 0x213F, 1); (0x2145, 0x2145, 1); (0x2160, 0x216F, 1);
    (0x2183, 0x2183, 1); (0x24B6, 0x24CF, 1); (0x2C00, 0x2C2F, 1);
    (0x2C60, 0x2C62, 2); (0x2C63, 0x2C64, 1); (0x2C67, 0x2C6D, 2);
    (0x2C6E, 0x2C70, 1); (0x2C72, 0x2C72, 1); (0x2C75, 0x2C75, 1);
    (0x2C7E, 0x2C80, 1); (0x2C82, 0x2CE2, 2); (0x2CEB, 0x2CED, 2);
    (0x2CF2, 0x2CF2, 1); (0xA640, 0xA66C, 2); (0xA680, 0xA69A, 2);
    (0xA722, 0xA72E, 2); (0xA732, 0xA76E, 2); (0xA779, 0xA77D, 2);
    (0xA77E, 0xA786, 2); (0xA78B, 0xA78D, 2); (0xA790, 0xA792, 2);
    (0xA796, 0xA7AA, 2); (0xA7AB, 0xA7AE, 1); (0xA7B0, 0xA7B4, 1);
    (0xA7B6, 0xA7C4, 2); (0xA7C5, 0xA7C7, 1); (0xA7C9, 0xA7C9, 1);
    (0xA7D0, 0xA7D0, 1); (0xA7D6, 0xA7D8, 2); (0xA7F5, 0xA7F5, 1);
    (0xFF21, 0xFF3A, 1); (0x10400, 0x10427, 1); (0x104B0, 0x104D3, 1);
    (0x10570, 0x1057A, 1); (0x1057C, 0x1058A, 1); (0x1058C, 0x10592, 1);
    (0x10594, 0x10595, 1); (0x10C80, 0x10CB2, 1); (0x118A0, 0x118BF, 1);
    (0x16E40, 0x16E5F, 1); (0x1D400, 0x1D419, 1); (0x1D434, 0x1D44D, 1);
    (0x1D468, 0x1D481, 1); (0x1D49C, 0x1D49E, 2); (0x1D49F, 0x1D49F, 1);
    (0x1D4A2, 0x1D4A2, 1); (0x1D4A5, 0x1D4A6, 1); (0x1D4A9, 0x1D4AC, 1);
    (0x1D4AE, 0x1D4B5, 1); (0x1D4D0, 0x1D4E9, 1); (0x1D504, 0x1D505, 1);
    (0x1D507, 0x1D50A, 1); (0x1D50D, 0x1D514, 1); (0x1D516, 0x1D51C, 1);
    (0x1D538, 0x1D539, 1); (0x1D53B, 0x1D53E, 1); (0x1D540, 0x1D544, 1);
    (0x1D546, 0x1D546, 1); (0x1D54A, 0x1D550, 1); (0x1D56C, 0x1D585, 1);
    (0x1D5A0, 0x1D5B9, 1); (0x1D5D4, 0x1D5ED, 1); (0x1D608, 0x1D621, 1);
    (0x1D63C, 0x1D655, 1); (0x1D670, 0x1D689, 1); (0x1D6A8, 0x1D6C0, 1);
    (0x1D6E2, 0x1D6FA, 1); (0x1D71C, 0x1D734, 1); (0x1D756, 0x1D76E, 1);
    (0x1D790, 0x1D7A8, 1); (0x1D7CA, 0x1D7CA, 1); (0x1E900, 0x1E921, 1);
    (0x1F130, 0x1F149, 1); (0x1F150, 0x1F169, 1); (0x1F170, 0x1F189, 1) ]%N.

(** The code points with the property Lowercase: [c.islower()] for a
    one-character string. *)
Definition is_lowercase_table : list (N * N * N) :=
  [
    (0x61, 0x7A, 1); (0xAA, 0xAA, 1); (0xB5, 0xB5, 1); (0xBA, 0xBA, 1);
    (0xDF, 0xF6, 1); (0xF8, 0xFF, 1); (0x101, 0x137, 2); (0x138, 0x148, 2);
    (0x149, 0x177, 2); (0x17A, 0x17E, 2); (0x17F, 0x180, 1);
    (0x183, 0x185, 2); (0x188, 0x188, 1); (0x18C, 0x18D, 1);
    (0x192, 0x192, 1); (0x195, 0x195, 1); (0x199, 0x19B, 1);
    (0x19E, 0x19E, 1); (0x1A1, 0x1A5, 2); (0x1A8, 0x1AA, 2);
    (0x1AB, 0x1AD, 2); (0x1B0, 0x1B0, 1); (0x1B4, 0x1B6, 2);
    (0x1B9, 0x1BA, 1); (0x1BD, 0x1BF, 1); (0x1C6, 0x1C6, 1);
    (0x1C9, 0x1C9, 1); (0x1CC, 0x1DC, 2); (0x1DD, 0x1EF, 2);
    (0x1F0, 0x1F0, 1); (0x1F3, 0x1F5, 2); (0x1F9, 0x233, 2);
    (0x234, 0x239, 1); (0x23C, 0x23C, 1); (0x23F, 0x240, 1);
    (0x242, 0x242, 1); (0x247, 0x24F, 2); (0x250, 0x293, 1);
    (0x295, 0x2B8, 1); (0x2C0, 0x2C1, 1); (0x2E0, 0x2E4, 1);
    (0x345, 0x345, 1); (0x371, 0x373, 2); (0x377, 0x377, 1);
    (0x37A, 0x37D, 1); (0x390, 0x390, 1); (0x3AC, 0x3CE, 1);
    (0x3D0, 0x3D1, 1); (0x3D5, 0x3D7, 1); (0x3D9, 0x3EF, 2);
    (0x3F0, 0x3F3, 1); (0x3F5, 0x3F5, 1); (0x3F8, 0x3F8, 1);
    (0x3FB, 0x3FC, 1); (0x430, 0x45F, 1); (0x461, 0x481, 2);
    (0x48B, 0x4BF, 2); (0x4C2, 0x4CE, 2); (0x4CF, 0x52F, 2);
    (0x560, 0x588, 1); (0x10D0, 0x10FA, 1); (0x10FD, 0x10FF, 1);
    (0x13F8, 0x13FD, 1); (0x1C80, 0x1C88, 1); (0x1D00, 0x1DBF, 1);
    (0x1E01, 0x1E95, 2); (0x1E96, 0x1E9D, 1); (0x1E9F, 0x1EFF, 2);
    (0x1F00, 0x1F07, 1); (0x1F10, 0x1F15, 1); (0x1F20, 0x1F27, 1);
    (0x1F30, 0x1F37, 1); (0x1F40, 0x1F45, 1); (0x1F50, 0x1F57, 1);
    (0x1F60, 0x1F67, 1); (0x1F70, 0x1F7D, 1); (0x1F80, 0x1F87, 1);
    (0x1F90, 0x1F97, 1); (0x1FA0, 0x1FA7, 1); (0x1FB0, 0x1FB4, 1);
    (0x1FB6, 0x1FB7, 1); (0x1FBE, 0x1FBE, 1); (0x1FC2, 0x1FC4, 1);
    (0x1FC6, 0x1FC7, 1); (0x1FD0, 0x1FD3, 1); (0x1FD6, 0x1FD7, 1);
    (0x1FE0, 0x1FE7, 1); (0x1FF2, 0x1FF4, 1); (0x1FF6, 0x1FF7, 1);
    (0x2071, 0x2071, 1); (0x207F, 0x207F, 1); (0x2090, 0x209C, 1);
    (0x210A, 0x210A, 1); (0x210E, 0x210F, 1); (0x2113, 0x2113, 1);
    (0x212F, 0x212F, 1); (0x2134, 0x2134, 1); (0x2139, 0x2139, 1);
    (0x213C, 0x213D, 1); (0x2146, 0x2149, 1); (0x214E, 0x214E, 1);
    (0x2170, 0x217F, 1); (0x2184, 0x2184, 1); (0x24D0, 0x24E9, 1);
    (0x2C30, 0x2C5F, 1); (0x2C61, 0x2C61, 1); (0x2C65, 0x2C66, 1);
    (0x2C68, 0x2C6C, 2); (0x2C71, 0x2C73, 2); (0x2C74, 0x2C76, 2);
    (0x2C77, 0x2C7D, 1); (0x2C81, 0x2CE3, 2); (0x2CE4, 0x2CE4, 1);
    (0x2CEC, 0x2CEE, 2); (0x2CF3, 0x2CF3, 1); (0x2D00, 0x2D25, 1);
    (0x2D27, 0x2D27, 1); (0x2D2D, 0x2D2D, 1); (0xA641, 0xA66D, 2);
    (0xA681, 0xA69B, 2); (0xA69C, 0xA69D, 1); (0xA723, 0xA72F, 2);
    (0xA730, 0xA731, 1); (0xA733, 0xA76F, 2); (0xA770, 0xA778, 1);
    (0xA77A, 0xA77C, 2); (0xA77F, 0xA787, 2); (0xA78C, 0xA78E, 2);
    (0xA791, 0xA793, 2); (0xA794, 0xA795, 1); (0xA797, 0xA7A9, 2);
    (0xA7AF, 0xA7AF, 1); (0xA7B5, 0xA7C3, 2); (0xA7C8, 0xA7CA, 2);
    (0xA7D1, 0xA7D9, 2); (0xA7F6, 0xA7F8, 2); (0xA7F9, 0xA7FA, 1);
    (0xAB30, 0xAB5A, 1); (0xAB5C, 0xAB68, 1); (0xAB70, 0xABBF, 1);
    (0xFB00, 0xFB06, 1); (0xFB13, 0xFB17, 1); (0xFF41, 0xFF5A, 1);
    (0x10428, 0x1044F, 1); (0x104D8, 0x104FB, 1); (0x10597, 0x105A1, 1);
    (0x105A3, 0x105B1, 1); (0x105B3, 0x105B9, 1); (0x105BB, 0x105BC, 1);
    (0x10780, 0x10780, 1); (0x10783, 0x10785, 1); (0x10787, 0x107B0, 1);
    (0x107B2, 0x107BA, 1); (0x10CC0, 0x10CF2, 1); (0x118C0, 0x118DF, 1);
    (0x16E60, 0x16E7F, 1); (0x1D41A, 0x1D433, 1); (0x1D44E, 0x1D454, 1);
    (0x1D456, 0x1D467, 1); (0x1D482, 0x1D49B, 1); (0x1D4B6, 0x1D4B9, 1);
    (0x1D4BB, 0x1D4BD, 2); (0x1D4BE, 0x1D4C3, 1); (0x1D4C5, 0x1D4CF, 1);
    (0x1D4EA, 0x1D503, 1); (0x1D51E, 0x1D537, 1); (0x1D552, 0x1D56B, 1);
    (0x1D586, 0x1D59F, 1); (0x1D5BA, 0x1D5D3, 1); (0x1D5EE, 0x1D607, 1);
    (0x1D622, 0x1D63B, 1); (0x1D656, 0x1D66F, 1); (0x1D68A, 0x1D6A5, 1);
    (0x1D6C2, 0x1D6DA, 1); (0x1D6DC, 0x1D6E1, 1); (0x1D6FC, 0x1D714, 1);
    (0x1D716, 0x1D71B, 1); (0x1D736, 0x1D74E, 1); (0x1D750, 0x1D755, 1);
    (0x1D770, 0x1D788, 1); (0x1D78A, 0x1D78F, 1); (0x1D7AA, 0x1D7C2, 1);
    (0x1D7C4, 0x1D7C9, 1); (0x1D7CB, 0x1D7CB, 1); (0x1DF00, 0x1DF09, 1);
    (0x1DF0B, 0x1DF1E, 1); (0x1E922, 0x1E943, 1) ]%N.

(** The code points with the property Cased. *)
Definition cased_table : list (N * N * N) :=
  [
    (0x41, 0x5A, 1); (0x61, 0x7A, 1); (0xAA, 0xAA, 1); (0xB5, 0xB5, 1);
    (0xBA, 0xBA, 1); (0xC0, 0xD6, 1); (0xD8, 0xF6, 1); (0xF8, 0x1BA, 1);
    (0x1BC, 0x1BF, 1); (0x1C4, 0x293, 1); (0x295, 0x2B8, 1);
    (0x2C0, 0x2C1, 1); (0x2E0, 0x2E4, 1); (0x345, 0x345, 1);
    (0x370, 0x373, 1); (0x376, 0x377, 1); (0x37A, 0x37D, 1);
    (0x37F, 0x37F, 1); (0x386, 0x388, 2); (0x389, 0x38A, 1);
    (0x38C, 0x38E, 2); (0x38F, 0x3A1, 1); (0x3A3, 0x3F5, 1);
    (0x3F7, 0x481, 1); (0x48A, 0x52F, 1); (0x531, 0x556, 1);
    (0x560, 0x588, 1); (0x10A0, 0x10C5, 1); (0x10C7, 0x10C7, 1);
    (0x10CD, 0x10CD, 1); (0x10D0, 0x10FA, 1); (0x10FD, 0x10FF, 1);
    (0x13A0, 0x13F5, 1); (0x13F8, 0x13FD, 1); (0x1C80, 0x1C88, 1);
    (0x1C90, 0x1CBA, 1); (0x1CBD, 0x1CBF, 1); (0x1D00, 0x1DBF, 1);
    (0x1E00, 0x1F15, 1); (0x1F18, 0x1F1D, 1); (0x1F20, 0x1F45, 1);
    (0x1F48, 0x1F4D, 1); (0x1F50, 0x1F57, 1); (0x1F59, 0x1F5F, 2);
    (0x1F60, 0x1F7D, 1); (0x1F80, 0x1FB4, 1); (0x1FB6, 0x1FBC, 1);
    (0x1FBE, 0x1FBE, 1); (0x1FC2, 0x1FC4, 1); (0x1FC6, 0x1FCC, 1);
    (0x1FD0, 0x1FD3, 1); (0x1FD6, 0x1FDB, 1); (0x1FE0, 0x1FEC, 1);
    (0x1FF2, 0x1FF4, 1); (0x1FF6, 0x1FFC, 1); (0x2071, 0x2071, 1);
    (0x207F, 0x207F, 1); (0x2090, 0x209C, 1); (0x2102, 0x2102, 1);
    (0x2107, 0x2107, 1); (0x210A, 0x2113, 1); (0x2115, 0x2115, 1);
    (0x2119, 0x211D, 1); (0x2124, 0x212A, 2); (0x212B, 0x212D, 1);
    (0x212F, 0x2134, 1); (0x2139, 0x2139, 1); (0x213C, 0x213F, 1);
    (0x2145, 0x2149, 1); (0x214E, 0x214E, 1); (0x2160, 0x217F, 1);
    (0x2183, 0x2184, 1); (0x24B6, 0x24E9, 1); (0x2C00, 0x2CE4, 1);
    (0x2CEB, 0x2CEE, 1); (0x2CF2, 0x2CF3, 1); (0x2D00, 0x2D25, 1);
    (0x2D27, 0x2D27, 1); (0x2D2D, 0x2D2D, 1); (0xA640, 0xA66D, 1);
    (0xA680, 0xA69D, 1); (0xA722, 0xA787, 1); (0xA78B, 0xA78E, 1);
    (0xA790, 0xA7CA, 1); (0xA7D0, 0xA7D1, 1); (0xA7D3, 0xA7D5, 2);
    (0xA7D6, 0xA7D9, 1); (0xA7F5, 0xA7F6, 1); (0xA7F8, 0xA7FA, 1);
    (0xAB30, 0xAB5A, 1); (0xAB5C, 0xAB68, 1); (0xAB70, 0xABBF, 1);
    (0xFB00, 0xFB06, 1); (0xFB13, 0xFB17, 1); (0xFF21, 0xFF3A, 1);
    (0xFF41, 0xFF5A, 1); (0x10400, 0x1044F, 1); (0x104B0, 0x104D3, 1);
    (0x104D8, 0x104FB, 1); (0x10570, 0x1057A, 1); (0x1057C, 0x1058A, 1);
    (0x1058C, 0x10592, 1); (0x10594, 0x10595, 1); (0x10597, 0x105A1, 1);
    (0x105A3, 0x105B1, 1); (0x105B3, 0x105B9, 1); (0x105BB, 0x105BC, 1);
    (0x10780, 0x10780, 1); (0x10783, 0x10785, 1); (0x10787, 0x107B0, 1);
    (0x107B2, 0x107BA, 1); (0x10C80, 0x10CB2, 1); (0x10CC0, 0x10CF2, 1);
    (0x118A0, 0x118DF, 1); (0x16E40, 0x16E7F, 1); (0x1D400, 0x1D454, 1);
    (0x1D456, 0x1D49C, 1); (0x1D49E, 0x1D49F, 1); (0x1D4A2, 0x1D4A2, 1);
    (0x1D4A5, 0x1D4A6, 1); (0x1D4A9, 0x1D4AC, 1); (0x1D4AE, 0x1D4B9, 1);
    (0x1D4BB, 0x1D4BD, 2); (0x1D4BE, 0x1D4C3, 1); (0x1D4C5, 0x1D505, 1);
    (0x1D507, 0x1D50A, 1); (0x1D50D, 0x1D514, 1); (0x1D516, 0x1D51C, 1);
    (0x1D51E, 0x1D539, 1); (0x1D53B, 0x1D53E, 1); (0x1D540, 0x1D544, 1);
    (0x1D546, 0x1D546, 1); (0x1D54A, 0x1D550, 1); (0x1D552, 0x1D6A5, 1);
    (0x1D6A8, 0x1D6C0, 1); (0x1D6C2, 0x1D6DA, 1); (0x1D6DC, 0x1D6FA, 1);
    (0x1D6FC, 0x1D714, 1); (0x1D716, 0x1D734, 1); (0x1D736, 0x1D74E, 1);
    (0x1D750, 0x1D76E, 1); (0x1D770, 0x1D788, 1); (0x1D78A, 0x1D7A8, 1);
    (0x1D7AA, 0x1D7C2, 1); (0x1D7C4, 0x1D7CB, 1); (0x1DF00, 0x1DF09, 1);
    (0x1DF0B, 0x1DF1E, 1); (0x1E900, 0x1E943, 1); (0x1F130, 0x1F149, 1);
    (0x1F150, 0x1F169, 1); (0x1F170, 0x1F189, 1) ]%N.

(** The code points with the property Case_Ignorable. *)
Definition case_ignorable_table : list (N * N * N) :=
  [
    (0x27, 0x27, 1); (0x2E, 0x2E, 1); (0x3A, 0x3A, 1); (0x5E, 0x60, 2);
    (0xA8, 0xA8, 1); (0xAD, 0xAF, 2); (0xB4, 0xB4, 1); (0xB7, 0xB8, 1);
    (0x2B0, 0x36F, 1); (0x374, 0x375, 1); (0x37A, 0x37A, 1);
    (0x384, 0x385, 1); (0x387, 0x387, 1); (0x483, 0x489, 1);
    (0x559, 0x559, 1); (0x55F, 0x55F, 1); (0x591, 0x5BD, 1);
    (0x5BF, 0x5C1, 2); (0x5C2, 0x5C4, 2); (0x5C5, 0x5C7, 2);
    (0x5F4, 0x5F4, 1); (0x600, 0x605, 1); (0x610, 0x61A, 1);
    (0x61C, 0x61C, 1); (0x640, 0x640, 1); (0x64B, 0x65F, 1);
    (0x670, 0x670, 1); (0x6D6, 0x6DD, 1); (0x6DF, 0x6E8, 1);
    (0x6EA, 0x6ED, 1); (0x70F, 0x711, 2); (0x730, 0x74A, 1);
    (0x7A6, 0x7B0, 1); (0x7EB, 0x7F5, 1); (0x7FA, 0x7FA, 1);
    (0x7FD, 0x7FD, 1); (0x816, 0x82D, 1); (0x859, 0x85B, 1);
    (0x888, 0x888, 1); (0x890, 0x891, 1); (0x898, 0x89F, 1);
    (0x8C9, 0x902, 1); (0x93A, 0x93C, 2); (0x941, 0x948, 1);
    (0x94D, 0x94D, 1); (0x951, 0x957, 1); (0x962, 0x963, 1);
    (0x971, 0x971, 1); (0x981, 0x981, 1); (0x9BC, 0x9BC, 1);
    (0x9C1, 0x9C4, 1); (0x9CD, 0x9CD, 1); (0x9E2, 0x9E3, 1);
    (0x9FE, 0x9FE, 1); (0xA01, 0xA02, 1); (0xA3C, 0xA3C, 1);
    (0xA41, 0xA42, 1); (0xA47, 0xA48, 1); (0xA4B, 0xA4D, 1);
    (0xA51, 0xA51, 1); (0xA70, 0xA71, 1); (0xA75, 0xA75, 1);
    (0xA81, 0xA82, 1); (0xABC, 0xABC, 1); (0xAC1, 0xAC5, 1);
    (0xAC7, 0xAC8, 1); (0xACD, 0xACD, 1); (0xAE2, 0xAE3, 1);
    (0xAFA, 0xAFF, 1); (0xB01, 0xB01, 1); (0xB3C, 0xB3C, 1);
    (0xB3F, 0xB41, 2); (0xB42, 0xB44, 1); (0xB4D, 0xB4D, 1);
    (0xB55, 0xB56, 1); (0xB62, 0xB63, 1); (0xB82, 0xB82, 1);
    (0xBC0, 0xBC0, 1); (0xBCD, 0xBCD, 1); (0xC00, 0xC00, 1);
    (0xC04, 0xC04, 1); (0xC3C, 0xC3E, 2); (0xC3F, 0xC40, 1);
    (0xC46, 0xC48, 1); (0xC4A, 0xC4D, 1); (0xC55, 0xC56, 1);
    (0xC62, 0xC63, 1); (0xC81, 0xC81, 1); (0xCBC, 0xCBC, 1);
    (0xCBF, 0xCBF, 1); (0xCC6, 0xCC6, 1); (0xCCC, 0xCCD, 1);
    (0xCE2, 0xCE3, 1); (0xD00, 0xD01, 1); (0xD3B, 0xD3C, 1);
    (0xD41, 0xD44, 1); (0xD4D, 0xD4D, 1); (0xD62, 0xD63, 1);
    (0xD81, 0xD81, 1); (0xDCA, 0xDCA, 1); (0xDD2, 0xDD4, 1);
    (0xDD6, 0xDD6, 1); (0xE31, 0xE31, 1); (0xE34, 0xE3A, 1);
    (0xE46, 0xE4E, 1); (0xEB1, 0xEB1, 1); (0xEB4, 0xEBC, 1);
    (0xEC6, 0xEC8, 2); (0xEC9, 0xECD, 1); (0xF18, 0xF19, 1);
    (0xF35, 0xF39, 2); (0xF71, 0xF7E, 1); (0xF80, 0xF84, 1);
    (0xF86, 0xF87, 1); (0xF8D, 0xF97, 1); (0xF99, 0xFBC, 1);
    (0xFC6, 0xFC6, 1); (0x102D, 0x1030, 1); (0x1032, 0x1037, 1);
    (0x1039, 0x103A, 1); (0x103D, 0x103E, 1); (0x1058, 0x1059, 1);
    (0x105E, 0x1060, 1); (0x1071, 0x1074, 1); (0x1082, 0x1082, 1);
    (0x1085, 0x1086, 1); (0x108D, 0x108D, 1); (0x109D, 0x109D, 1);
    (0x10FC, 0x10FC, 1); (0x135D, 0x135F, 1); (0x1712, 0x1714, 1);
    (0x1732, 0x1733, 1); (0x1752, 0x1753, 1); (0x1772, 0x1773, 1);
    (0x17B4, 0x17B5, 1); (0x17B7, 0x17BD, 1); (0x17C6, 0x17C6, 1);
    (0x17C9, 0x17D3, 1); (0x17D7, 0x17D7, 1); (0x17DD, 0x17DD, 1);
    (0x180B, 0x180F, 1); (0x1843, 0x1843, 1); (0x1885, 0x1886, 1);
    (0x18A9, 0x18A9, 1); (0x1920, 0x1922, 1); (0x1927, 0x1928, 1);
    (0x1932, 0x1932, 1); (0x1939, 0x193B, 1); (0x1A17, 0x1A18, 1);
    (0x1A1B, 0x1A1B, 1); (0x1A56, 0x1A58, 2); (0x1A59, 0x1A5E, 1);
    (0x1A60, 0x1A62, 2); (0x1A65, 0x1A6C, 1); (0x1A73, 0x1A7C, 1);
    (0x1A7F, 0x1A7F, 1); (0x1AA7, 0x1AA7, 1); (0x1AB0, 0x1ACE, 1);
    (0x1B00, 0x1B03, 1); (0x1B34, 0x1B36, 2); (0x1B37, 0x1B3A, 1);
    (0x1B3C, 0x1B3C, 1); (0x1B42, 0x1B42, 1); (0x1B6B, 0x1B73, 1);
    (0x1B80, 0x1B81, 1); (0x1BA2, 0x1BA5, 1); (0x1BA8, 0x1BA9, 1);
    (0x1BAB, 0x1BAD, 1); (0x1BE6, 0x1BE8, 2); (0x1BE9, 0x1BE9, 1);
    (0x1BED, 0x1BEF, 2); (0x1BF0, 0x1BF1, 1); (0x1C2C, 0x1C33, 1);
    (0x1C36, 0x1C37, 1); (0x1C78, 0x1C7D, 1); (0x1CD0, 0x1CD2, 1);
    (0x1CD4, 0x1CE0, 1); (0x1CE2, 0x1CE8, 1); (0x1CED, 0x1CED, 1);
    (0x1CF4, 0x1CF4, 1); (0x1CF8, 0x1CF9, 1); (0x1D2C, 0x1D6A, 1);
    (0x1D78, 0x1D78, 1); (0x1D9B, 0x1DFF, 1); (0x1FBD, 0x1FBF, 2);
    (0x1FC0, 0x1FC1, 1); (0x1FCD, 0x1FCF, 1); (0x1FDD, 0x1FDF, 1);
    (0x1FED, 0x1FEF, 1); (0x1FFD, 0x1FFE, 1); (0x200B, 0x200F, 1);
    (0x2018, 0x2019, 1); (0x2024, 0x2024, 1); (0x2027, 0x2027, 1);
    (0x202A, 0x202E, 1); (0x2060, 0x2064, 1); (0x2066, 0x206F, 1);
    (0x2071, 0x2071, 1); (0x207F, 0x207F, 1); (0x2090, 0x209C, 1);
    (0x20D0, 0x20F0, 1); (0x2C7C, 0x2C7D, 1); (0x2CEF, 0x2CF1, 1);
    (0x2D6F, 0x2D6F, 1); (0x2D7F, 0x2D7F, 1); (0x2DE0, 0x2DFF, 1);
    (0x2E2F, 0x2E2F, 1); (0x3005, 0x3005, 1); (0x302A, 0x302D, 1);
    (0x3031, 0x3035, 1); (0x303B, 0x303B, 1); (0x3099, 0x309E, 1);
    (0x30FC, 0x30FE, 1); (0xA015, 0xA015, 1); (0xA4F8, 0xA4FD, 1);
    (0xA60C, 0xA60C, 1); (0xA66F, 0xA672, 1); (0xA674, 0xA67D, 1);
    (0xA67F, 0xA67F, 1); (0xA69C, 0xA69F, 1); (0xA6F0, 0xA6F1, 1);
    (0xA700, 0xA721, 1); (0xA770, 0xA770, 1); (0xA788, 0xA78A, 1);
    (0xA7F2, 0xA7F4, 1); (0xA7F8, 0xA7F9, 1); (0xA802, 0xA802, 1);
    (0xA806, 0xA806, 1); (0xA80B, 0xA80B, 1); (0xA825, 0xA826, 1);
    (0xA82C, 0xA82C, 1); (0xA8C4, 0xA8C5, 1); (0xA8E0, 0xA8F1, 1);
    (0xA8FF, 0xA8FF, 1); (0xA926, 0xA92D, 1); (0xA947, 0xA951, 1);
    (0xA980, 0xA982, 1); (0xA9B3, 0xA9B3, 1); (0xA9B6, 0xA9B9, 1);
    (0xA9BC, 0xA9BD, 1); (0xA9CF, 0xA9CF, 1); (0xA9E5, 0xA9E6, 1);
    (0xAA29, 0xAA2E, 1); (0xAA31, 0xAA32, 1); (0xAA35, 0xAA36, 1);
    (0xAA43, 0xAA43, 1); (0xAA4C, 0xAA4C, 1); (0xAA70, 0xAA70, 1);
    (0xAA7C, 0xAA7C, 1); (0xAAB0, 0xAAB2, 2); (0xAAB3, 0xAAB4, 1);
    (0xAAB7, 0xAAB8, 1); (0xAABE, 0xAABF, 1); (0xAAC1, 0xAAC1, 1);
    (0xAADD, 0xAADD, 1); (0xAAEC, 0xAAED, 1); (0xAAF3, 0xAAF4, 1);
    (0xAAF6, 0xAAF6, 1); (0xAB5B, 0xAB5F, 1); (0xAB69, 0xAB6B, 1);
    (0xABE5, 0xABE5, 1); (0xABE8, 0xABE8, 1); (0xABED, 0xABED, 1);
    (0xFB1E, 0xFB1E, 1); (0xFBB2, 0xFBC2, 1); (0xFE00, 0xFE0F, 1);
    (0xFE13, 0xFE13, 1); (0xFE20, 0xFE2F, 1); (0xFE52, 0xFE52, 1);
    (0xFE55, 0xFE55, 1); (0xFEFF, 0xFEFF, 1); (0xFF07, 0xFF07, 1);
    (0xFF0E, 0xFF0E, 1); (0xFF1A, 0xFF1A, 1); (0xFF3E, 0xFF40, 2);
    (0xFF70, 0xFF70, 1); (0xFF9E, 0xFF9F, 1); (0xFFE3, 0xFFE3, 1);
    (0xFFF9, 0xFFFB, 1); (0x101FD, 0x101FD, 1); (0x102E0, 0x102E0, 1);
    (0x10376, 0x1037A, 1); (0x10780, 0x10785, 1); (0x10787, 0x107B0, 1);
    (0x107B2, 0x107BA, 1); (0x10A01, 0x10A03, 1); (0x10A05, 0x10A06, 1);
    (0x10A0C, 0x10A0F, 1); (0x10A38, 0x10A3A, 1); (0x10A3F, 0x10A3F, 1);
    (0x10AE5, 0x10AE6, 1); (0x10D24, 0x10D27, 1); (0x10EAB, 0x10EAC, 1);
    (0x10F46, 0x10F50, 1); (0x10F82, 0x10F85, 1); (0x11001, 0x11001, 1);
    (0x11038, 0x11046, 1); (0x11070, 0x11070, 1); (0x11073, 0x11074, 1);
    (0x1107F, 0x11081, 1); (0x110B3, 0x110B6, 1); (0x110B9, 0x110BA, 1);
    (0x110BD, 0x110BD, 1); (0x110C2, 0x110C2, 1); (0x110CD, 0x110CD, 1);
    (0x11100, 0x11102, 1); (0x11127, 0x1112B, 1); (0x1112D, 0x11134, 1);
    (0x11173, 0x11173, 1); (0x11180, 0x11181, 1); (0x111B6, 0x111BE, 1);
    (0x111C9, 0x111CC, 1); (0x111CF, 0x111CF, 1); (0x1122F, 0x11231, 1);
    (0x11234, 0x11236, 2); (0x11237, 0x11237, 1); (0x1123E, 0x1123E, 1);
    (0x112DF, 0x112DF, 1); (0x112E3, 0x112EA, 1); (0x11300, 0x11301, 1);
    (0x1133B, 0x1133C, 1); (0x11340, 0x11340, 1); (0x11366, 0x1136C, 1);
    (0x11370, 0x11374, 1); (0x11438, 0x1143F, 1); (0x11442, 0x11444, 1);
    (0x11446, 0x11446, 1); (0x1145E, 0x1145E, 1); (0x114B3, 0x114B8, 1);
    (0x114BA, 0x114BA, 1); (0x114BF, 0x114C0, 1); (0x114C2, 0x114C3, 1);
    (0x115B2, 0x115B5, 1); (0x115BC, 0x115BD, 1); (0x115BF, 0x115C0, 1);
    (0x115DC, 0x115DD, 1); (0x11633, 0x1163A, 1); (0x1163D, 0x1163F, 2);
    (0x11640, 0x11640, 1); (0x116AB, 0x116AD, 2); (0x116B0, 0x116B5, 1);
    (0x116B7, 0x116B7, 1); (0x1171D, 0x1171F, 1); (0x11722, 0x11725, 1);
    (0x11727, 0x1172B, 1); (0x1182F, 0x11837, 1); (0x11839, 0x1183A, 1);
    (0x1193B, 0x1193C, 1); (0x1193E, 0x1193E, 1); (0x11943, 0x11943, 1);
    (0x119D4, 0x119D7, 1); (0x119DA, 0x119DB, 1); (0x119E0, 0x119E0, 1);
    (0x11A01, 0x11A0A, 1); (0x11A33, 0x11A38, 1); (0x11A3B, 0x11A3E, 1);
    (0x11A47, 0x11A47, 1); (0x11A51, 0x11A56, 1); (0x11A59, 0x11A5B, 1);
    (0x11A8A, 0x11A96, 1); (0x11A98, 0x11A99, 1); (0x11C30, 0x11C36, 1);
    (0x11C38, 0x11C3D, 1); (0x11C3F, 0x11C3F, 1); (0x11C92, 0x11CA7, 1);
    (0x11CAA, 0x11CB0, 1); (0x11CB2, 0x11CB3, 1); (0x11CB5, 0x11CB6, 1);
    (0x11D31, 0x11D36, 1); (0x11D3A, 0x11D3C, 2); (0x11D3D, 0x11D3F, 2);
    (0x11D40, 0x11D45, 1); (0x11D47, 0x11D47, 1); (0x11D90, 0x11D91, 1);
    (0x11D95, 0x11D97, 2); (0x11EF3, 0x11EF4, 1); (0x13430, 0x13438, 1);
    (0x16AF0, 0x16AF4, 1); (0x16B30, 0x16B36, 1); (0x16B40, 0x16B43, 1);
    (0x16F4F, 0x16F4F, 1); (0x16F8F, 0x16F9F, 1); (0x16FE0, 0x16FE1, 1);
    (0x16FE3, 0x16FE4, 1); (0x1AFF0, 0x1AFF3, 1); (0x1AFF5, 0x1AFFB, 1);
    (0x1AFFD, 0x1AFFE, 1); (0x1BC9D, 0x1BC9E, 1); (0x1BCA0, 0x1BCA3, 1);
    (0x1CF00, 0x1CF2D, 1); (0x1CF30, 0x1CF46, 1); (0x1D167, 0x1D169, 1);
    (0x1D173, 0x1D182, 1); (0x1D185, 0x1D18B, 1); (0x1D1AA, 0x1D1AD, 1);
    (0x1D242, 0x1D244, 1); (0x1DA00, 0x1DA36, 1); (0x1DA3B, 0x1DA6C, 1);
    (0x1DA75, 0x1DA75, 1); (0x1DA84, 0x1DA84, 1); (0x1DA9B, 0x1DA9F, 1);
    (0x1DAA1, 0x1DAAF, 1); (0x1E000, 0x1E006, 1); (0x1E008, 0x1E018, 1);
    (0x1E01B, 0x1E021, 1); (0x1E023, 0x1E024, 1); (0x1E026, 0x1E02A, 1);
    (0x1E130, 0x1E13D, 1); (0x1E2AE, 0x1E2AE, 1); (0x1E2EC, 0x1E2EF, 1);
    (0x1E8D0, 0x1E8D6, 1); (0x1E944, 0x1E94B, 1); (0x1F3FB, 0x1F3FF, 1);
    (0xE0001, 0xE0001, 1); (0xE0020, 0xE007F, 1); (0xE0100, 0xE01EF, 1) ]%N.

(** The simple lowercase mappings: [(lo, hi, step, target)] sends
    [lo], [lo + step], ... up to [hi] to [target], [target + step], ... *)
Definition lowercase_table : list (N * N * N * N) :=
  [
    (0x41, 0x5A, 1, 0x61); (0xC0, 0xD6, 1, 0xE0); (0xD8, 0xDE, 1, 0xF8);
    (0x100, 0x12E, 2, 0x101); (0x132, 0x136, 2, 0x133);
    (0x139, 0x147, 2, 0x13A); (0x14A, 0x176, 2, 0x14B);
    (0x178, 0x178, 1, 0xFF); (0x179, 0x17D, 2, 0x17A);
    (0x181, 0x181, 1, 0x253); (0x182, 0x184, 2, 0x183);
    (0x186, 0x186, 1, 0x254); (0x187, 0x187, 1, 0x188);
    (0x189, 0x18A, 1, 0x256); (0x18B, 0x18B, 1, 0x18C);
    (0x18E, 0x18E, 1, 0x1DD); (0x18F, 0x18F, 1, 0x259);
    (0x190, 0x190, 1, 0x25B); (0x191, 0x191, 1, 0x192);
    (0x193, 0x193, 1, 0x260); (0x194, 0x194, 1, 0x263);
    (0x196, 0x196, 1, 0x269); (0x197, 0x197, 1, 0x268);
    (0x198, 0x198, 1, 0x199); (0x19C, 0x19C, 1, 0x26F);
    (0x19D, 0x19D, 1, 0x272); (0x19F, 0x19F, 1, 0x275);
    (0x1A0, 0x1A4, 2, 0x1A1); (0x1A6, 0x1A6, 1, 0x280);
    (0x1A7, 0x1A7, 1, 0x1A8); (0x1A9, 0x1A9, 1, 0x283);
    (0x1AC, 0x1AC, 1, 0x1AD); (0x1AE, 0x1AE, 1, 0x288);
    (0x1AF, 0x1AF, 1, 0x1B0); (0x1B1, 0x1B2, 1, 0x28A);
    (0x1B3, 0x1B5, 2, 0x1B4); (0x1B7, 0x1B7, 1, 0x292);
    (0x1B8, 0x1B8, 1, 0x1B9); (0x1BC, 0x1BC, 1, 0x1BD);
    (0x1C4, 0x1C4, 1, 0x1C6); (0x1C5, 0x1C5, 1, 0x1C6);
    (0x1C7, 0x1C7, 1, 0x1C9); (0x1C8, 0x1C8, 1, 0x1C9);
    (0x1CA, 0x1CA, 1, 0x1CC); (0x1CB, 0x1DB, 2, 0x1CC);
    (0x1DE, 0x1EE, 2, 0x1DF); (0x1F1, 0x1F1, 1, 0x1F3);
    (0x1F2, 0x1F4, 2, 0x1F3); (0x1F6, 0x1F6, 1, 0x195);
    (0x1F7, 0x1F7, 1, 0x1BF); (0x1F8, 0x21E, 2, 0x1F9);
    (0x220, 0x220, 1, 0x19E); (0x222, 0x232, 2, 0x223);
    (0x23A, 0x23A, 1, 0x2C65); (0x23B, 0x23B, 1, 0x23C);
    (0x23D, 0x23D, 1, 0x19A); (0x23E, 0x23E, 1, 0x2C66);
    (0x241, 0x241, 1, 0x242); (0x243, 0x243, 1, 0x180);
    (0x244, 0x244, 1, 0x289); (0x245, 0x245, 1, 0x28C);
    (0x246, 0x24E, 2, 0x247); (0x370, 0x372, 2, 0x371);
    (0x376, 0x376, 1, 0x377); (0x37F, 0x37F, 1, 0x3F3);
    (0x386, 0x386, 1, 0x3AC); (0x388, 0x38A, 1, 0x3AD);
    (0x38C, 0x38C, 1, 0x3CC); (0x38E, 0x38F, 1, 0x3CD);
    (0x391, 0x3A1, 1, 0x3B1); (0x3A3, 0x3AB, 1, 0x3C3);
    (0x3CF, 0x3CF, 1, 0x3D7); (0x3D8, 0x3EE, 2, 0x3D9);
    (0x3F4, 0x3F4, 1, 0x3B8); (0x3F7, 0x3F7, 1, 0x3F8);
    (0x3F9, 0x3F9, 1, 0x3F2); (0x3FA, 0x3FA, 1, 0x3FB);
    (0x3FD, 0x3FF, 1, 0x37B); (0x400, 0x40F, 1, 0x450);
    (0x410, 0x42F, 1, 0x430); (0x460, 0x480, 2, 0x461);
    (0x48A, 0x4BE, 2, 0x48B); (0x4C0, 0x4C0, 1, 0x4CF);
    (0x4C1, 0x4CD, 2, 0x4C2); (0x4D0, 0x52E, 2, 0x4D1);
    (0x531, 0x556, 1, 0x561); (0x10A0, 0x10C5, 1, 0x2D00);
    (0x10C7, 0x10C7, 1, 0x2D27); (0x10CD, 0x10CD, 1, 0x2D2D);
    (0x13A0, 0x13EF, 1, 0xAB70); (0x13F0, 0x13F5, 1, 0x13F8);
    (0x1C90, 0x1CBA, 1, 0x10D0); (0x1CBD, 0x1CBF, 1, 0x10FD);
    (0x1E00, 0x1E94, 2, 0x1E01); (0x1E9E, 0x1E9E, 1, 0xDF);
    (0x1EA0, 0x1EFE, 2, 0x1EA1); (0x1F08, 0x1F0F, 1, 0x1F00);
    (0x1F18, 0x1F1D, 1, 0x1F10); (0x1F28, 0x1F2F, 1, 0x1F20);
    (0x1F38, 0x1F3F, 1, 0x1F30); (0x1F48, 0x1F4D, 1, 0x1F40);
    (0x1F59, 0x1F5F, 2, 0x1F51); (0x1F68, 0x1F6F, 1, 0x1F60);
    (0x1F88, 0x1F8F, 1, 0x1F80); (0x1F98, 0x1F9F, 1, 0x1F90);
    (0x1FA8, 0x1FAF, 1, 0x1FA0); (0x1FB8, 0x1FB9, 1, 0x1FB0);
    (0x1FBA, 0x1FBB, 1, 0x1F70); (0x1FBC, 0x1FBC, 1, 0x1FB3);
    (0x1FC8, 0x1FCB, 1, 0x1F72); (0x1FCC, 0x1FCC, 1, 0x1FC3);
    (0x1FD8, 0x1FD9, 1, 0x1FD0); (0x1FDA, 0x1FDB, 1, 0x1F76);
    (0x1FE8, 0x1FE9, 1, 0x1FE0); (0x1FEA, 0x1FEB, 1, 0x1F7A);
    (0x1FEC, 0x1FEC, 1, 0x1FE5); (0x1FF8, 0x1FF9, 1, 0x1F78);
    (0x1FFA, 0x1FFB, 1, 0x1F7C); (0x1FFC, 0x1FFC, 1, 0x1FF3);
    (0x2126, 0x2126, 1, 0x3C9); (0x212A, 0x212A, 1, 0x6B);
    (0x212B, 0x212B, 1, 0xE5); (0x2132, 0x2132, 1, 0x214E);
    (0x2160, 0x216F, 1, 0x2170); (0x2183, 0x2183, 1, 0x2184);
    (0x24B6, 0x24CF, 1, 0x24D0); (0x2C00, 0x2C2F, 1, 0x2C30);
    (0x2C60, 0x2C60, 1, 0x2C61); (0x2C62, 0x2C62, 1, 0x26B);
    (0x2C63, 0x2C63, 1, 0x1D7D); (0x2C64, 0x2C64, 1, 0x27D);
    (0x2C67, 0x2C6B, 2, 0x2C68); (0x2C6D, 0x2C6D, 1, 0x251);
    (0x2C6E, 0x2C6E, 1, 0x271); (0x2C6F, 0x2C6F, 1, 0x250);
    (0x2C70, 0x2C70, 1, 0x252); (0x2C72, 0x2C72, 1, 0x2C73);
    (0x2C75, 0x2C75, 1, 0x2C76); (0x2C7E, 0x2C7F, 1, 0x23F);
    (0x2C80, 0x2CE2, 2, 0x2C81); (0x2CEB, 0x2CED, 2, 0x2CEC);
    (0x2CF2, 0x2CF2, 1, 0x2CF3); (0xA640, 0xA66C, 2, 0xA641);
    (0xA680, 0xA69A, 2, 0xA681); (0xA722, 0xA72E, 2, 0xA723);
    (0xA732, 0xA76E, 2, 0xA733); (0xA779, 0xA77B, 2, 0xA77A);
    (0xA77D, 0xA77D, 1, 0x1D79); (0xA77E, 0xA786, 2, 0xA77F);
    (0xA78B, 0xA78B, 1, 0xA78C); (0xA78D, 0xA78D, 1, 0x265);
    (0xA790, 0xA792, 2, 0xA791); (0xA796, 0xA7A8, 2, 0xA797);
    (0xA7AA, 0xA7AA, 1, 0x266); (0xA7AB, 0xA7AB, 1, 0x25C);
    (0xA7AC, 0xA7AC, 1, 0x261); (0xA7AD, 0xA7AD, 1, 0x26C);
    (0xA7AE, 0xA7AE, 1, 0x26A); (0xA7B0, 0xA7B0, 1, 0x29E);
    (0xA7B1, 0xA7B1, 1, 0x287); (0xA7B2, 0xA7B2, 1, 0x29D);
    (0xA7B3, 0xA7B3, 1, 0xAB53); (0xA7B4, 0xA7C2, 2, 0xA7B5);
    (0xA7C4, 0xA7C4, 1, 0xA794); (0xA7C5, 0xA7C5, 1, 0x282);
    (0xA7C6, 0xA7C6, 1, 0x1D8E); (0xA7C7, 0xA7C9, 2, 0xA7C8);
    (0xA7D0, 0xA7D0, 1, 0xA7D1); (0xA7D6, 0xA7D8, 2, 0xA7D7);
    (0xA7F5, 0xA7F5, 1, 0xA7F6); (0xFF21, 0xFF3A, 1, 0xFF41);
    (0x10400, 0x10427, 1, 0x10428); (0x104B0, 0x104D3, 1, 0x104D8);
    (0x10570, 0x1057A, 1, 0x10597); (0x1057C, 0x1058A, 1, 0x105A3);
    (0x1058C, 0x10592, 1, 0x105B3); (0x10594, 0x10595, 1, 0x105BB);
    (0x10C80, 0x10CB2, 1, 0x10CC0); (0x118A0, 0x118BF, 1, 0x118C0);
    (0x16E40, 0x16E5F, 1, 0x16E60); (0x1E900, 0x1E921, 1, 0x1E922) ]%N.

(** [c.isupper()] for a one-character string. *)
Definition isupper (c : N) : bool := in_table uppercase_table c.

(** [c.islower()] for a one-character string. *)
Definition islower (c : N) : bool := in_table is_lowercase_table c.

Definition cased (c : N) : bool := in_table cased_table c.

Definition case_ignorable (c : N) : bool := in_table case_ignorable_table c.

Fixpoint lookup_lower (tab : list (N * N * N * N)) (c : N) : option N :=
  match tab with
  | [] => None
  | (lo, hi, step, target) :: tab' =>
      if (N.leb lo c && N.leb c hi && N.eqb ((c - lo) mod step) 0)%N
      then Some (target + (c - lo))%N
      else lookup_lower tab' c
  end.

(** [_PyUnicode_ToLowerFull]: the lowercase of one character; only
    U+0130 has a lowercase of more than one character. *)
Definition to_lower_full (c : N) : list N :=
  if N.eqb c 0x130 then [0x69; 0x307]%N
  else match lookup_lower lowercase_table c with
       | Some c' => [c']
       | None => [c]
       end.

(** The first character that is not case-ignorable, and what follows. *)
Fixpoint skip_ignorable (s : list N) : list N :=
  match s with
  | [] => []
  | c :: rest => if case_ignorable c then skip_ignorable rest else s
  end.

(** [handle_capital_sigma]: a capital sigma becomes the final small
    sigma U+03C2 when a cased character comes before it and none
    after it, case-ignorable characters apart; [before] has the
    characters before it, the nearest first. *)
Definition handle_capital_sigma (before after : list N) : N :=
  let final_sigma :=
    match skip_ignorable before with
    | [] => false
    | c :: _ =>
        cased c
        && match skip_ignorable after with
           | [] => true
           | c' :: _ => negb (cased c')
           end
    end in
  (if final_sigma then 0x3C2 else 0x3C3)%N.

(** [lower_ucs4]. *)
Definition lower_ucs4 (before : list N) (c : N) (after : list N) : list N :=
  if N.eqb c 0x3A3 then [handle_capital_sigma before after]
  else to_lower_full c.

Fixpoint do_lower (before s : list N) : list N :=
  match s with
  | [] => []
  | c :: rest => lower_ucs4 before c rest ++ do_lower (c :: before) rest
  end.

(** [s.lower()]. *)
Definition lower (s : list N) : list N := do_lower [] s.

Definition underscore : N := 0x5F%N.

(** [name != name.lower() or any(c.isupper() for c in name if c != "_")] *)
Definition _violates_snake (name : list N) : bool :=
  negb (bool_decide (name = lower name))
  || existsb isupper (filter (fun c => c ≠ underscore) name).

(** The code points of a string of the 8-bit model. *)
Definition of_string (s : string) : list N := N_of_ascii <$> Py.chars s.

(** Lowercasing changes the character exactly when it is uppercase. *)
Definition regular (c : N) : bool :=
  bool_decide (isupper c = true ↔ lower_ucs4 [] c [] ≠ [c]).

End Unicode.

(** ** Syntax trees

    The node classes of Python's [ast] module that the checker tells
    apart, with their child-bearing fields in [_fields] order; every
    other class is [Other].  The first component of each node is its
    object identity: the parent map is a [dict] keyed by node objects,
    which hash by identity. *)

Inductive constant : Type :=
| CStr (s : string)
| CNotStr.

Record alias : Type := Alias {
  alias_id : nat;
  alias_name : string;
  asname : option string
}.

Inductive node : Type :=
| Module (i : nat) (body type_ignores : list node)
| ClassDef (i : nat) (name : string)
    (bases keywords body decorator_list : list node)
| FunctionDef (i : nat) (name : string) (args : arguments)
    (body decorator_list : list node) (returns : option node)
| Import (i : nat) (names : list alias)
| ImportFrom (i : nat) (module : option string) (names : list alias)
    (level : nat)
| Expr (i : nat) (value : node)
| Constant (i : nat) (value : constant)
| Other (i : nat) (children : list node)
with arguments : Type :=
| Arguments (i : nat) (posonlyargs args : list arg) (vararg : option arg)
    (kwonlyargs : list arg) (kw_defaults : list (option node))
    (kwarg : option arg) (defaults : list node)
with arg : Type :=
| Arg (i : nat) (name : string) (annotation : option node).

(** What [ast.walk] yields: any object of the tree. *)
Inductive ast : Type :=
| ANode (n : node)
| AArguments (a : arguments)
| AArg (a : arg)
| AAlias (a : alias).

Definition nid (x : ast) : nat :=
  match x with
  | ANode (Module i _ _) | ANode (ClassDef i _ _ _ _ _)
  | ANode (FunctionDef i _ _ _ _ _) | ANode (Import i _)
  | ANode (ImportFrom i _ _ _) | ANode (Expr i _)
  | ANode (Constant i _) | ANode (Other i _) => i
  | AArguments (Arguments i _ _ _ _ _ _ _) => i
  | AArg (Arg i _ _) => i
  | AAlias a => alias_id a
  end.

(** An optional field holding a node contributes it, [None] nothing. *)
Definition opt_child {A} (f : A → ast) (o : option A) : list ast :=
  match o with Some x => [f x] | None => [] end.

(** [ast.iter_child_nodes]: the nodes held directly by the fields of
    [x], field by field; list fields contribute their node items. *)
Definition iter_child_nodes (x : ast) : list ast :=
  match x with
  | ANode (Module _ body type_ignores) =>
      (ANode <$> body) ++ (ANode <$> type_ignores)
  | ANode (ClassDef _ _ bases keywords body decorator_list) =>
      (ANode <$> bases) ++ (ANode <$> keywords) ++ (ANode <$> body)
      ++ (ANode <$> decorator_list)
  | ANode (FunctionDef _ _ args body decorator_list returns) =>
      AArguments args :: (ANode <$> body) ++ (ANode <$> decorator_list)
      ++ opt_child ANode returns
  | ANode (Import _ names) => AAlias <$> names
  | ANode (ImportFrom _ _ names _) => AAlias <$> names
  | ANode (Expr _ value) => [ANode value]
  | ANode (Constant _ _) => []
  | ANode (Other _ children) => ANode <$> children
  | AArguments (Arguments _ posonlyargs args vararg kwonlyargs kw_defaults
                  kwarg defaults) =>
      (AArg <$> posonlyargs) ++ (AArg <$> args) ++ opt_child AArg vararg
      ++ (AArg <$> kwonlyargs) ++ (kw_defaults ≫= opt_child ANode)
      ++ opt_child AArg kwarg ++ (ANode <$> defaults)
  | AArg (Arg _ _ annotation) => opt_child ANode annotation
  | AAlias _ => []
  end.

(** Number of objects in a tree. *)
Fixpoint node_size (n : node) : nat :=
  S match n with
    | Module _ body type_ignores =>
        sum_list_with node_size body + sum_list_with node_size type_ignores
    | ClassDef _ _ bases keywords body decorator_list =>
        sum_list_with node_size bases + sum_list_with node_size keywords
        + sum_list_with node_size body
        + sum_list_with node_size decorator_list
    | FunctionDef _ _ args body decorator_list returns =>
        arguments_size args + sum_list_with node_size body
        + sum_list_with node_size decorator_list
        + from_option node_size 0 returns
    | Import _ names => length names
    | ImportFrom _ _ names _ => length names
    | Expr _ value => node_size value
    | Constant _ _ => 0
    | Other _ children => sum_list_with node_size children
    end
with arguments_size (a : arguments) : nat :=
  match a with
  | Arguments _ posonlyargs args vararg kwonlyargs kw_defaults kwarg
      defaults =>
      S (sum_list_with arg_size posonlyargs + sum_list_with arg_size args
         + from_option arg_size 0 vararg
         + sum_list_with arg_size kwonlyargs
         + sum_list_with (from_option node_size 0) kw_defaults
         + from_option arg_size 0 kwarg
         + sum_list_with node_size defaults)
  end
with arg_size (a : arg) : nat :=
  match a with
  | Arg _ _ annotation => S (from_option node_size 0 annotation)
  end.

Definition size (x : ast) : nat :=
  match x with
  | ANode n => node_size n
  | AArguments a => arguments_size a
  | AArg a => arg_size a
  | AAlias _ => 1
  end.

(** [ast.walk]: a queue starts with the root; the front node is taken
    off, its children go to the back, and the node is yielded.  The
    loop runs once per object, so [size] steps empty the queue. *)
Fixpoint walk_loop (fuel : nat) (todo : list ast) : list ast :=
  match fuel, todo with
  | S fuel', x :: rest => x :: walk_loop fuel' (rest ++ iter_child_nodes x)
  | _, _ => []
  end.

Definition walk (tree : ast) : list ast := walk_loop (size tree) [tree].

(** ** Parent map *)

(** [{child: parent for parent in ast.walk(tree)
             for child in ast.iter_child_nodes(parent)}]: the pairs in
    the order in which the comprehension stores them. *)
Definition child_parent_pairs (tree : ast) : list (ast * ast) :=
  parent ← walk tree; child ← iter_child_nodes parent; [(child, parent)].

(** A later pair with the same key overwrites an earlier one. *)
Definition dict_of_pairs (ps : list (ast * ast)) : gmap nat (option ast) :=
  foldl (fun m cp => <[nid cp.1 := Some cp.2]> m) ∅ ps.

(** [d1 | d2] on dicts: the right operand wins on shared keys. *)
Definition dict_or {V} (d1 d2 : gmap nat V) : gmap nat V := d2 ∪ d1.

Definition build_parent_map (tree : ast) : gmap nat (option ast) :=
  dict_or (dict_of_pairs (child_parent_pairs tree)) {[nid tree := None]}.

(** [isinstance(parents.get(node), ast.ClassDef)]; [get] on a missing
    key gives [None]. *)
Definition is_method (n : ast) (parents : gmap nat (option ast)) : bool :=
  match parents !! nid n with
  | Some (Some (ANode (ClassDef _ _ _ _ _ _))) => true
  | _ => false
  end.

(** ** Sorting

    [sorted] on strings orders them by code point, character by
    character, which is [String.leb]. *)

Definition str_le (a b : string) : Prop := String.leb a b = true.

#[global] Instance str_le_dec : RelDecision str_le.
Proof. intros a b. unfold str_le. apply _. Defined.

(** [sorted(xs)] for a sequence of strings. *)
Definition sorted (xs : list string) : list string := merge_sort str_le xs.

(** [sorted(s)] for a set of strings: the iteration order of the set
    does not matter, [elements] stands for any of them. *)
Definition sorted_set (s : gset string) : list string :=
  sorted (elements s).

(** ** Structure and metrics *)

(** [alias.name for alias in n.names] for an [Import] node, nothing
    for any other object. *)
Definition import_names (x : ast) : list string :=
  match x with
  | ANode (Import _ names) => alias_name <$> names
  | _ => []
  end.

(** [n.module] for an [ImportFrom] node whose [module] is truthy
    (neither [None] nor the empty string). *)
Definition import_from_module (x : ast) : list string :=
  match x with
  | ANode (ImportFrom _ (Some m) _ _) => if Py.truthy m then [m] else []
  | _ => []
  end.

Definition packages_imported (tree : ast) : list string :=
  let imports : gset string :=
    list_to_set (walk tree ≫= import_names)
    ∪ list_to_set (walk tree ≫= import_from_module) in
  sorted_set imports.

Definition is_ClassDef (x : ast) : bool :=
  match x with ANode (ClassDef _ _ _ _ _ _) => true | _ => false end.

Definition is_FunctionDef (x : ast) : bool :=
  match x with ANode (FunctionDef _ _ _ _ _ _) => true | _ => false end.

(** The [name] attribute, read only on class and function nodes. *)
Definition name_of (x : ast) : string :=
  match x with
  | ANode (ClassDef _ name _ _ _ _) => name
  | ANode (FunctionDef _ name _ _ _ _) => name
  | _ => ""
  end.

Definition classes_defined (tree : ast) : list string :=
  sorted_set (list_to_set (name_of <$> filter (fun n => is_ClassDef n) (walk tree))).

Definition functions_defined (tree : ast) (parents : gmap nat (option ast))
  : list string :=
  sorted_set
    (list_to_set
       (name_of <$> filter (fun n => is_FunctionDef n && negb (is_method n parents))
                      (walk tree))).

(** [parents[n].name], read only where [is_method n parents] holds, so
    the key is present and the value is a class. *)
Definition parent_name (n : ast) (parents : gmap nat (option ast)) : string :=
  match parents !! nid n with
  | Some (Some p) => name_of p
  | _ => ""
  end.

(** ** Documentation and annotation analysis *)

Section Docstrings.

(** [inspect.cleandoc], the indentation clean-up that
    [ast.get_docstring] applies to the text. *)
Variable cleandoc : string → string.

(** [node.body] of a class or function node. *)
Definition body_of (x : ast) : list node :=
  match x with
  | ANode (ClassDef _ _ _ _ body _) => body
  | ANode (FunctionDef _ _ _ body _ _) => body
  | _ => []
  end.

(** [ast.get_docstring(node)]: the body starts with an expression
    statement whose value is a string constant. *)
Definition get_docstring (x : ast) : option string :=
  match body_of x with
  | Expr _ (Constant _ (CStr text)) :: _ => Some (cleandoc text)
  | _ => None
  end.

Definition fmt (parents : gmap nat (option ast)) (n : ast) : string :=
  let name :=
    if is_FunctionDef n && is_method n parents
    then parent_name n parents ++ "." ++ name_of n
    else name_of n in
  let doc := get_docstring n in
  match doc with
  | Some d => if Py.truthy d then name ++ ": " ++ d
              else name ++ ": DocString not found."
  | None => name ++ ": DocString not found."
  end.

Definition docstring_entries (tree : ast) (parents : gmap nat (option ast))
  : list string :=
  fmt parents <$> filter (fun n => is_ClassDef n || is_FunctionDef n) (walk tree).

End Docstrings.

(** [arg.annotation is None] *)
Definition annotation_is_None (a : arg) : bool :=
  match a with Arg _ _ None => true | Arg _ _ (Some _) => false end.

(** [any(arg.annotation is None for arg in fn.args.args)
     or fn.returns is None], for a function node. *)
Definition incomplete (fn : ast) : bool :=
  match fn with
  | ANode (FunctionDef _ _ (Arguments _ _ args _ _ _ _ _) _ _ returns) =>
      existsb annotation_is_None args
      || match returns with None => true | Some _ => false end
  | _ => false
  end.

Definition missing_type_annotations (tree : ast)
    (parents : gmap nat (option ast)) : list string :=
  sorted
    ((fun n => if is_method n parents
               then parent_name n parents ++ "." ++ name_of n
               else name_of n)
     <$> filter (fun n => is_FunctionDef n && incomplete n) (walk tree)).

Definition naming_violations (tree : ast) (parents : gmap nat (option ast))
  : list string * list string :=
  let bad_classes :=
    sorted_set
      (list_to_set
         (name_of <$> filter (fun n => is_ClassDef n && _violates_camel (name_of n))
                        (walk tree))) in
  let bad_funcs :=
    sorted_set
      (list_to_set
         ((fun n => if is_method n parents
                    then parent_name n parents ++ "." ++ name_of n
                    else name_of n)
          <$> filter (fun n => is_FunctionDef n && _violates_snake (name_of n))
                (walk tree))) in
  (bad_classes, bad_funcs).

(** ** Report renderer *)

(** [bool(xs)] for a sequence. *)
Definition nonempty {A} (xs : list A) : bool :=
  match xs with [] => false | _ => true end.

(** The list that [render_report] joins with newlines.  [name] is
    [path.name]; [total_lines] is printed in decimal. *)
Definition report_lines (name : string) (total_lines : nat)
    (packages classes functions docstrings missing_ann bad_classes bad_funcs
       : list string) : list string :=
  [ "File analysed: " ++ name;
    "Total number of lines of code: " ++ pretty total_lines;
    "";
    "File Structure";
    "Packages imported: "
      ++ (if nonempty packages then Py.join ", " packages else "None");
    "Classes defined: "
      ++ (if nonempty classes then Py.join ", " classes else "None");
    "Functions defined: "
      ++ (if nonempty functions then Py.join ", " functions else "None");
    "";
    "DocStrings" ]
  ++ docstrings
  ++ [ "";
       "Type Annotation Check";
       (if negb (nonempty missing_ann)
        then "All functions and methods use type annotations."
        else "Missing type annotations:" ++ String "010" ""
             ++ Py.join (String "010" "") missing_ann);
       "";
       "Naming Convention Check";
       (if negb (nonempty bad_classes) && negb (nonempty bad_funcs)
        then "All names adhere to the specified conventions."
        else Py.join (String "010" "")
               (filter (fun s => Py.truthy s)
                  [ if nonempty bad_classes
                    then "Classes not using CamelCase: "
                         ++ Py.join ", " bad_classes
                    else "";
                    if nonempty bad_funcs
                    then "Functions/methods not using snake_case: "
                         ++ Py.join ", " bad_funcs
                    else "" ])) ].

Definition render_report (name : string) (total_lines : nat)
    (packages classes functions docstrings missing_ann bad_classes bad_funcs
       : list string) : string :=
  Py.join (String "010" "")
    (report_lines name total_lines packages classes functions docstrings
       missing_ann bad_classes bad_funcs).

(** The analysis of [main], between reading the file and writing the
    report: [name] is the file's name, [lines] its lines, [tree] the
    parsed source. *)
Definition report_of (cleandoc : string → string) (name : string)
    (lines : list string) (tree : ast) : string :=
  let parents := build_parent_map tree in
  render_report name (length lines)
    (packages_imported tree)
    (classes_defined tree)
    (functions_defined tree parents)
    (docstring_entries cleandoc tree parents)
    (missing_type_annotations tree parents)
    (naming_violations tree parents).1
    (naming_violations tree parents).2.

(** ** Vocabulary of the properties *)

Local Open Scope list_scope.
Local Open Scope nat_scope.

(** [c] is held directly by a field of [p]. *)
Definition child_of (p c : ast) : Prop := c ∈ iter_child_nodes p.

(** [x] is [tree] or lies below it. *)
Definition in_tree (tree x : ast) : Prop := rtc child_of tree x.

(** A tree shares no object: the identities met by the walk are all
    different. *)
Definition well_formed (tree : ast) : Prop := NoDup (nid <$> walk tree).

(** The levels of a forest, one after the other: the roots, then their
    children, then the children of those, for [n] levels. *)
Fixpoint levels (n : nat) (roots : list ast) : list ast :=
  match n with
  | 0 => []
  | S n' => roots ++ levels n' (roots ≫= iter_child_nodes)
  end.

(** Depth-first pre-order: a node, then the pre-order of each child. *)
Fixpoint preorder_upto (n : nat) (x : ast) : list ast :=
  match n with
  | 0 => []
  | S n' => x :: (iter_child_nodes x ≫= preorder_upto n')
  end.

Definition preorder (tree : ast) : list ast := preorder_upto (size tree) tree.

(** The name under which the auditors report [n]. *)
Definition qualified_name (parents : gmap nat (option ast)) (n : ast)
  : string :=
  if is_method n parents
  then (parent_name n parents ++ "." ++ name_of n)%string
  else name_of n.

(** [fn.args.args], [fn.args.vararg] and [fn.args.kwarg], [fn.returns]. *)
Definition ordinary_params (fn : ast) : list arg :=
  match fn with
  | ANode (FunctionDef _ _ (Arguments _ _ args _ _ _ _ _) _ _ _) => args
  | _ => []
  end.

Definition catch_all_params (fn : ast) : list arg :=
  match fn with
  | ANode (FunctionDef _ _ (Arguments _ _ _ vararg _ _ kwarg _) _ _ _) =>
      option_list vararg ++ option_list kwarg
  | _ => []
  end.

Definition returns_of (fn : ast) : option node :=
  match fn with
  | ANode (FunctionDef _ _ _ _ _ returns) => returns
  | _ => None
  end.

(** The names the inventory draws from, in walk order, repeats kept. *)
Definition imported_names (tree : ast) : list string :=
  (walk tree ≫= import_names) ++ (walk tree ≫= import_from_module).

Definition class_names (tree : ast) : list string :=
  name_of <$> filter (fun n => is_ClassDef n) (walk tree).

Definition function_names (tree : ast) (parents : gmap nat (option ast))
  : list string :=
  name_of <$> filter (fun n => is_FunctionDef n && negb (is_method n parents))
                (walk tree).

(** The sections of a report: its lines cut at the blank lines, each
    section a header line and the lines under it. *)
Fixpoint sections_from (cur : list string) (lines : list string)
  : list (list string) :=
  match lines with
  | [] => [reverse cur]
  | l :: rest =>
      if Py.truthy l then sections_from (l :: cur) rest
      else reverse cur :: sections_from [] rest
  end.

Definition sections (lines : list string) : list (list string) :=
  sections_from [] lines.

(** The object is none of the kinds the inventory collects. *)
Definition is_Import (x : ast) : bool :=
  match x with
  | ANode (Import _ _) | ANode (ImportFrom _ _ _ _) => true
  | _ => false
  end.

Definition plain (x : ast) : bool :=
  negb (is_Import x) && negb (is_ClassDef x) && negb (is_FunctionDef x).

(** The annotation line and the naming line of [report_lines], by
    themselves. *)
Definition annotation_line (missing_ann : list string) : string :=
  if negb (nonempty missing_ann)
  then "All functions and methods use type annotations."
  else ("Missing type annotations:" ++ String "010" ""
        ++ Py.join (String "010" "") missing_ann)%string.

Definition naming_line (bad_classes bad_funcs : list string) : string :=
  if negb (nonempty bad_classes) && negb (nonempty bad_funcs)
  then "All names adhere to the specified conventions."
  else Py.join (String "010" "")
         (filter (fun s => Py.truthy s)
            [ if nonempty bad_classes
              then ("Classes not using CamelCase: "
                    ++ Py.join ", " bad_classes)%string
              else ""%string;
              if nonempty bad_funcs
              then ("Functions/methods not using snake_case: "
                    ++ Py.join ", " bad_funcs)%string
              else ""%string ]).

(** ** The class-based checker (assignment1)

    The methods of [StyleChecker] append lines to [self.report]; each
    is modelled by the lines it appends, [None] standing for a raised
    exception.  The f-strings print lists with [repr], which is a
    parameter. *)

Module StyleChecker.

(** [attach_parents(tree)]: the [parent] attribute set on each object,
    keyed by the object's identity; a later assignment overwrites. *)
Definition attach_parents (tree : ast) : gmap nat ast :=
  foldl (fun attrs cp => <[nid cp.1 := cp.2]> attrs) ∅
    (child_parent_pairs tree).

(** The three lists at the end of the loop of [_check_structure];
    [node.module] goes into [packages] as it is, [None] included. *)
Definition structure_step
    (acc : list (option string) * list string * list string) (node : ast)
  : list (option string) * list string * list string :=
  let '(packages, classes, functions) := acc in
  match node with
  | ANode (Import _ names) =>
      (packages ++ (Some <$> (alias_name <$> names)), classes, functions)
  | ANode (ImportFrom _ module _ _) =>
      (packages ++ [module], classes, functions)
  | ANode (ClassDef _ name _ _ _ _) =>
      (packages, classes ++ [name], functions)
  | ANode (FunctionDef _ name _ _ _ _) =>
      (packages, classes, functions ++ [name])
  | _ => acc
  end.

Definition structure_lists (tree : ast)
  : list (option string) * list string * list string :=
  foldl structure_step ([], [], []) (walk tree).

(** The list [missing_annotations] at the end of the loop of
    [_check_type_annotations]: the name once for the first parameter
    without annotation, and once more for a missing return
    annotation. *)
Definition annotations_step (acc : list string) (node : ast) : list string :=
  match node with
  | ANode (FunctionDef _ name (Arguments _ _ args _ _ _ _ _) _ _ returns) =>
      let acc' :=
        if existsb annotation_is_None args then acc ++ [name] else acc in
      match returns with
      | None => acc' ++ [name]
      | Some _ => acc'
      end
  | _ => acc
  end.

Definition missing_annotations (tree : ast) : list string :=
  foldl annotations_step [] (walk tree).

(** The lists [incorrect_classes] and [incorrect_functions] at the end
    of the loop of [_check_naming_conventions]; [node.name[0]] raises
    on an empty class name. *)
Definition naming_step (acc : option (list string * list string))
    (node : ast) : option (list string * list string) :=
  '(incorrect_classes, incorrect_functions) ← acc;
  match node with
  | ANode (ClassDef _ name _ _ _ _) =>
      bad ← A1.class_violation name;
      Some (if bad : bool then (incorrect_classes ++ [name], incorrect_functions)
            else (incorrect_classes, incorrect_functions))
  | ANode (FunctionDef _ name _ _ _ _) =>
      Some (if A1.function_violation name
            then (incorrect_classes, incorrect_functions ++ [name])
            else (incorrect_classes, incorrect_functions))
  | _ => Some (incorrect_classes, incorrect_functions)
  end.

Definition naming_lists (tree : ast) : option (list string * list string) :=
  foldl naming_step (Some ([], [])) (walk tree).

Section Report.

Variable cleandoc : string → string.

(** [repr] of a list of names or of [None]s, as an f-string prints it. *)
Variable repr : list (option string) → string.

Definition _check_structure (tree : ast) : list string :=
  let '(packages, classes, functions) := structure_lists tree in
  [ ("Packages imported: "
       ++ (if nonempty packages then repr packages else "None"))%string;
    ("Classes defined: "
       ++ (if nonempty classes then repr (Some <$> classes) else "None"))%string;
    ("Functions defined: "
       ++ (if nonempty functions then repr (Some <$> functions)
           else "None"))%string ].

(** One pass of the loop of [_check_docstrings]; reading
    [node.parent] raises when the attribute was never set. *)
Definition docstring_line (attrs : gmap nat ast) (node : ast)
  : option (list string) :=
  if is_FunctionDef node || is_ClassDef node then
    let docstring := get_docstring cleandoc node in
    name ←
      (if is_FunctionDef node then
         parent ← attrs !! nid node;
         Some (if is_ClassDef parent
               then (name_of parent ++ "_" ++ name_of node)%string
               else name_of node)
       else Some (name_of node));
    Some [ match docstring with
           | Some d =>
               if Py.truthy d
               then (name ++ " DocString: " ++ d ++ String "010" "")%string
               else (name ++ " DocString not found." ++ String "010" "")%string
           | None => (name ++ " DocString not found." ++ String "010" "")%string
           end ]
  else Some [].

Definition _check_docstrings (attrs : gmap nat ast) (tree : ast)
  : option (list string) :=
  mjoin <$> mapM (docstring_line attrs) (walk tree).

Definition _check_type_annotations (tree : ast) : list string :=
  let missing := missing_annotations tree in
  [ if nonempty missing
    then ("Functions missing type annotations: "
          ++ repr (Some <$> missing))%string
    else "All functions and methods have type annotations."%string ].

Definition _check_naming_conventions (tree : ast) : option (list string) :=
  '(incorrect_classes, incorrect_functions) ← naming_lists tree;
  Some ((if nonempty incorrect_classes
         then [("Classes not using CamelCase: "
                ++ repr (Some <$> incorrect_classes))%string]
         else [])
        ++ (if nonempty incorrect_functions
            then [("Functions not using snake_case: "
                   ++ repr (Some <$> incorrect_functions))%string]
            else [])
        ++ (if negb (nonempty incorrect_classes)
               && negb (nonempty incorrect_functions)
            then ["All names adhere to naming conventions."%string]
            else [])).

(** [generate_report] up to the writing of the file: the text that
    [_write_report] writes, [lines] being the lines of the file and
    [attrs] the [parent] attributes that are set. *)
Definition generate_report (attrs : gmap nat ast) (lines : list string)
    (tree : ast) : option string :=
  let total := ("Total number of lines: " ++ pretty (length lines))%string in
  let structure := _check_structure tree in
  docstrings ← _check_docstrings attrs tree;
  let annotations := _check_type_annotations tree in
  naming ← _check_naming_conventions tree;
  Some (Py.join (String "010" "")
          ([total] ++ structure ++ docstrings ++ annotations ++ naming)).

End Report.

End StyleChecker.

(** ** Vocabulary of the comparison of the two checkers *)

(** What one object adds to each list of [_check_structure]. *)
Definition packages_of (x : ast) : list (option string) :=
  match x with
  | ANode (Import _ names) => Some <$> (alias_name <$> names)
  | ANode (ImportFrom _ module _ _) => [module]
  | _ => []
  end.

Definition class_of (x : ast) : list string :=
  if is_ClassDef x then [name_of x] else [].

Definition function_of (x : ast) : list string :=
  if is_FunctionDef x then [name_of x] else [].

(** What one object adds to [missing_annotations]. *)
Definition missing_of (x : ast) : list string :=
  match x with
  | ANode (FunctionDef _ name (Arguments _ _ args _ _ _ _ _) _ _ returns) =>
      (if existsb annotation_is_None args then [name] else [])
      ++ (match returns with None => [name] | Some _ => [] end)
  | _ => []
  end.

(** What one object adds to the lists of [_check_naming_conventions]. *)
Definition bad_class_of (x : ast) : list string :=
  match x with
  | ANode (ClassDef _ name _ _ _ _) =>
      match A1.class_violation name with
      | Some true => [name]
      | _ => []
      end
  | _ => []
  end.

Definition bad_function_of (x : ast) : list string :=
  if is_FunctionDef x && A1.function_violation (name_of x)
  then [name_of x] else [].

(** The object is a class with an empty name. *)
Definition nameless_class (x : ast) : bool :=
  is_ClassDef x && negb (Py.truthy (name_of x)).

(** A class [foo_bar] and a function [DoThing]. *)
Definition naming_case : ast :=
  ANode (Module 1
           [ ClassDef 2 "foo_bar" [] [] [Other 3 []] [];
             FunctionDef 4 "DoThing" (Arguments 5 [] [] None [] [] None [])
               [Other 6 []] [] None ] []).

(** ** Sample programs *)

Module Sample.

(** The annotation [int]: a [Name] node. *)
Definition int_name (i : nat) : node := Other i [].

(** A statement such as [pass]. *)
Definition pass (i : nat) : node := Other i [].

(** [[
import os, ast
from . import x
class Foo:
    def bar(x): pass
def baz(x: int) -> int:
    "doc"
    pass
]] *)
Definition bar : node :=
  FunctionDef 3 "bar" (Arguments 4 [] [Arg 5 "x" None] None [] [] None [])
    [pass 6] [] None.

Definition Foo : node := ClassDef 2 "Foo" [] [] [bar] [].

Definition baz : node :=
  FunctionDef 7 "baz"
    (Arguments 8 [] [Arg 9 "x" (Some (int_name 10))] None [] [] None [])
    [Expr 11 (Constant 12 (CStr "doc")); pass 13] [] (Some (int_name 14)).

Definition scenario : ast :=
  ANode (Module 1
           [Import 15 [Alias 16 "os" None; Alias 17 "ast" None];
            ImportFrom 18 None [Alias 19 "x" None] 1;
            Foo; baz] []).

(** A function [f] whose only parameter is a starred catch-all named
    [args], without annotation, and whose return type is [int]. *)
Definition f_star : node :=
  FunctionDef 2 "f"
    (Arguments 3 [] [] (Some (Arg 4 "args" None)) [] [] None [])
    [pass 5] [] (Some (int_name 6)).

Definition star_args : ast := ANode (Module 1 [f_star] []).

(** The empty file. *)
Definition empty_module : ast := ANode (Module 1 [] []).

(** [[
from . import x
]] *)
Definition relative_import : ast :=
  ANode (Module 1 [ImportFrom 2 None [Alias 3 "x" None] 1] []).

(** Two files with the classes [A] and [B], in different orders and
    with a different number of definitions. *)
Definition class_named (i : nat) (name : string) : node :=
  ClassDef i name [] [] [pass (S i)] [].

Definition classes_b_a : ast :=
  ANode (Module 1 [class_named 2 "B"; class_named 4 "A"] []).

Definition classes_a_b_a : ast :=
  ANode (Module 1 [class_named 2 "A"; class_named 4 "B"; class_named 6 "A"] []).

End Sample.

(** * Characters and names *)

Ltac each_char c := destruct c as [[] [] [] [] [] [] [] []].

Lemma lower_char_moves_upper c :
  Ascii.eqb (Py.lower_char c) c = negb (Py.isupper c).
Proof. each_char c; reflexivity. Qed.

Lemma isupper_not_islower c : Py.isupper c = true → Py.islower c = false.
Proof. each_char c; vm_compute; congruence. Qed.

Lemma isupper_not_underscore c : Py.isupper c = true → c ≠ Py.underscore.
Proof. intros H ->. discriminate H. Qed.

Lemma str_ne_spec a b : Py.str_ne a b = true ↔ a ≠ b.
Proof.
  unfold Py.str_ne. destruct (String.eqb_spec a b); simpl; split; congruence.
Qed.

Lemma str_ne_lower name :
  Py.str_ne name (Py.lower name) = existsb Py.isupper (Py.chars name).
Proof.
  unfold Py.str_ne. induction name as [|c s IH]; [reflexivity|].
  simpl. pose proof (lower_char_moves_upper c) as Hc. rewrite Ascii.eqb_sym in Hc.
  destruct (Py.isupper c); simpl in *.
  - rewrite Hc. reflexivity.
  - rewrite Hc. exact IH.
Qed.

Lemma existsb_isupper_filter l :
  existsb Py.isupper (filter (fun c => c ≠ Py.underscore) l)
  = existsb Py.isupper l.
Proof.
  induction l as [|c l IH]; [reflexivity|].
  rewrite filter_cons. simpl. case_decide as Hc.
  - simpl. by rewrite IH.
  - subst c. simpl. exact IH.
Qed.

Lemma existsb_elem_of {A} (f : A → bool) l :
  existsb f l = true ↔ ∃ x, x ∈ l ∧ f x = true.
Proof.
  rewrite existsb_exists. setoid_rewrite list_elem_of_In. reflexivity.
Qed.

Lemma violates_snake_upper name :
  _violates_snake name = existsb Py.isupper (Py.chars name).
Proof.
  unfold _violates_snake.
  rewrite str_ne_lower, existsb_isupper_filter. apply orb_diag.
Qed.

Lemma forallb_elem_of {A} (f : A → bool) l :
  forallb f l = true ↔ ∀ x, x ∈ l → f x = true.
Proof.
  rewrite forallb_forall. setoid_rewrite list_elem_of_In. reflexivity.
Qed.

Lemma upper_char_violates_a1 name c :
  c ∈ Py.chars name → Py.isupper c = true →
  A1.function_violation name = true.
Proof.
  intros Hin Hup. unfold A1.function_violation.
  assert (forallb (fun x => Py.islower x || Ascii.eqb x Py.underscore)
            (Py.chars name) = false) as Hall.
  { apply not_true_iff_false. rewrite forallb_elem_of. intros Hall.
    specialize (Hall c Hin). rewrite (isupper_not_islower c Hup) in Hall.
    simpl in Hall. apply Ascii.eqb_eq in Hall.
    by apply (isupper_not_underscore c Hup). }
  rewrite Hall. simpl. apply str_ne_spec. intros ->.
  vm_compute in Hall. discriminate Hall.
Qed.

Lemma snake_violation_is_a1_violation name :
  _violates_snake name = true → A1.function_violation name = true.
Proof.
  rewrite violates_snake_upper, existsb_elem_of. intros (c & Hin & Hup).
  by apply (upper_char_violates_a1 name c).
Qed.

(** * The order on strings *)

Lemma ascii_compare_N a b :
  Ascii.compare a b = N.compare (N_of_ascii a) (N_of_ascii b).
Proof. reflexivity. Qed.

Lemma ascii_compare_Eq a b : Ascii.compare a b = Eq ↔ a = b.
Proof.
  split; [apply Ascii.compare_eq_iff|]. intros ->.
  rewrite ascii_compare_N. apply N.compare_refl.
Qed.

Lemma ascii_compare_Lt a b :
  Ascii.compare a b = Lt ↔ (N_of_ascii a < N_of_ascii b)%N.
Proof. rewrite ascii_compare_N. apply N.compare_lt_iff. Qed.

Lemma ascii_compare_Gt a b :
  Ascii.compare a b = Gt ↔ (N_of_ascii b < N_of_ascii a)%N.
Proof. rewrite ascii_compare_N. apply N.compare_gt_iff. Qed.

Lemma string_compare_trans c a b d :
  String.compare a b = c → String.compare b d = c → String.compare a d = c.
Proof.
  revert b d. induction a as [|x a IH]; intros [|y b] [|z d]; simpl;
    try congruence.
  destruct (Ascii.compare x y) eqn:Hxy, (Ascii.compare y z) eqn:Hyz;
    try (apply ascii_compare_Eq in Hxy; subst y);
    try (apply ascii_compare_Eq in Hyz; subst z);
    rewrite ?Hxy, ?Hyz; try congruence.
  - rewrite (proj2 (ascii_compare_Eq x x) eq_refl). apply IH.
  - apply (proj1 (ascii_compare_Lt _ _)) in Hxy, Hyz.
    rewrite (proj2 (ascii_compare_Lt x z)) by lia. done.
  - apply (proj1 (ascii_compare_Gt _ _)) in Hxy, Hyz.
    rewrite (proj2 (ascii_compare_Gt x z)) by lia. done.
Qed.

Lemma string_compare_refl a : String.compare a a = Eq.
Proof.
  induction a as [|x a IH]; [done|]. simpl.
  by rewrite (proj2 (ascii_compare_Eq x x) eq_refl).
Qed.

#[global] Instance str_le_total : Total str_le.
Proof. intros a b. apply String.leb_total. Qed.

#[global] Instance str_le_antisymm : AntiSymm (=) str_le.
Proof. intros a b. apply String.leb_antisym. Qed.

#[global] Instance str_le_trans : Transitive str_le.
Proof.
  intros a b d. unfold str_le, String.leb. intros Hab Hbd.
  destruct (String.compare a d) eqn:Had; try done.
  destruct (String.compare a b) eqn:Hab'; try done;
    destruct (String.compare b d) eqn:Hbd'; try done.
  - apply String.compare_eq_iff in Hab', Hbd'. subst.
    rewrite string_compare_refl in Had. done.
  - apply String.compare_eq_iff in Hab'. subst. congruence.
  - apply String.compare_eq_iff in Hbd'. subst. congruence.
  - rewrite (string_compare_trans Lt a b d Hab' Hbd') in Had. done.
Qed.

Lemma elem_of_sorted x l : x ∈ sorted l ↔ x ∈ l.
Proof. unfold sorted. by rewrite merge_sort_Permutation. Qed.

Lemma elem_of_sorted_set x (s : gset string) : x ∈ sorted_set s ↔ x ∈ s.
Proof. unfold sorted_set. rewrite elem_of_sorted. apply elem_of_elements. Qed.

Lemma sorted_is_sorted l : StronglySorted str_le (sorted l).
Proof. apply (StronglySorted_merge_sort str_le). Qed.

Lemma sorted_set_NoDup (s : gset string) : NoDup (sorted_set s).
Proof.
  unfold sorted_set, sorted. rewrite merge_sort_Permutation.
  apply NoDup_elements.
Qed.

Lemma sorted_Permutation l1 l2 : l1 ≡ₚ l2 → sorted l1 = sorted l2.
Proof.
  intros Hp. apply (StronglySorted_unique str_le); try apply sorted_is_sorted.
  unfold sorted. by rewrite !merge_sort_Permutation.
Qed.

(** * The traversal *)

Lemma sum_list_with_fmap {A B} (f : B → nat) (g : A → B) l :
  sum_list_with f (g <$> l) = sum_list_with (fun x => f (g x)) l.
Proof. induction l as [|x l IH]; simpl; [done|]. by f_equal. Qed.

Lemma sum_list_with_bind_opt (l : list (option node)) :
  sum_list_with size (l ≫= opt_child ANode)
  = sum_list_with (from_option node_size 0) l.
Proof. induction l as [|[x|] l IH]; simpl; [done| |done]. by f_equal. Qed.

Lemma sum_list_with_alias (l : list alias) :
  sum_list_with size (AAlias <$> l) = length l.
Proof. induction l as [|a l IH]; simpl; [done|]. f_equal. exact IH. Qed.

(** Every object counts itself and its children's trees. *)
Lemma size_children x :
  size x = S (sum_list_with size (iter_child_nodes x)).
Proof.
  destruct x as [[]|[]|[]|]; simpl;
    rewrite ?sum_list_with_app, ?sum_list_with_alias, ?sum_list_with_bind_opt,
      ?sum_list_with_fmap; simpl;
    repeat match goal with
           | |- context [opt_child _ ?o] => destruct o; simpl
           end;
    change (fun x => node_size x) with node_size;
    change (fun x => arg_size x) with arg_size; lia.
Qed.

Lemma size_pos x : 0 < size x.
Proof. rewrite size_children. lia. Qed.

(** The queue loop: what it yields is the queue followed by the
    children of everything it yields, in order. *)
Lemma walk_loop_unfold fuel todo :
  sum_list_with size todo ≤ fuel →
  walk_loop fuel todo = todo ++ (walk_loop fuel todo ≫= iter_child_nodes).
Proof.
  revert todo. induction fuel as [|fuel IH]; intros [|x rest] Hfuel; simpl;
    try done.
  - pose proof (size_pos x). simpl in Hfuel. lia.
  - f_equal. rewrite IH at 1.
    + by rewrite <- app_assoc.
    + rewrite sum_list_with_app. simpl in Hfuel.
      rewrite (size_children x) in Hfuel. lia.
Qed.

Lemma walk_loop_length fuel todo :
  sum_list_with size todo ≤ fuel →
  length (walk_loop fuel todo) = sum_list_with size todo.
Proof.
  revert todo. induction fuel as [|fuel IH]; intros [|x rest] Hfuel; simpl;
    try done.
  - pose proof (size_pos x). simpl in Hfuel. lia.
  - simpl in Hfuel. rewrite (size_children x) in Hfuel |- *.
    rewrite IH; rewrite sum_list_with_app; lia.
Qed.

(** More fuel than [size] changes nothing: the queue was empty. *)
Lemma walk_loop_fuel fuel1 fuel2 todo :
  sum_list_with size todo ≤ fuel1 → sum_list_with size todo ≤ fuel2 →
  walk_loop fuel1 todo = walk_loop fuel2 todo.
Proof.
  revert fuel2 todo.
  induction fuel1 as [|fuel1 IH]; intros [|fuel2] [|x rest] H1 H2; simpl;
    try done.
  - pose proof (size_pos x). simpl in H1. lia.
  - pose proof (size_pos x). simpl in H2. lia.
  - f_equal. simpl in H1, H2. rewrite (size_children x) in H1, H2.
    apply IH; rewrite sum_list_with_app; lia.
Qed.

Lemma walk_unfold tree :
  walk tree = tree :: (walk tree ≫= iter_child_nodes).
Proof. unfold walk. rewrite walk_loop_unfold at 1; [done|simpl; lia]. Qed.

Lemma walk_length tree : length (walk tree) = size tree.
Proof. unfold walk. rewrite walk_loop_length; simpl; lia. Qed.

Lemma walk_root tree : tree ∈ walk tree.
Proof. rewrite walk_unfold. left. Qed.

Lemma walk_child tree p c :
  p ∈ walk tree → c ∈ iter_child_nodes p → c ∈ walk tree.
Proof.
  intros Hp Hc. rewrite walk_unfold. right. apply list_elem_of_bind. eauto.
Qed.

Lemma walk_loop_in_tree fuel todo x :
  x ∈ walk_loop fuel todo → ∃ r, r ∈ todo ∧ in_tree r x.
Proof.
  revert todo. induction fuel as [|fuel IH]; intros [|y rest]; simpl;
    try (by intros ?%elem_of_nil).
  intros [->|Hx]%elem_of_cons.
  - exists y. split; [left|]. unfold in_tree. done.
  - destruct (IH _ Hx) as (r & [Hr|Hr]%elem_of_app & Hrx).
    + exists r. split; [by right|done].
    + exists y. split; [left|]. by eapply rtc_l.
Qed.

(** [ast.walk] yields exactly the objects of the tree. *)
Lemma elem_of_walk tree x : x ∈ walk tree ↔ in_tree tree x.
Proof.
  split.
  - intros Hx. destruct (walk_loop_in_tree _ _ _ Hx) as (r & Hr & Hrx).
    by apply list_elem_of_singleton in Hr as ->.
  - revert x. apply rtc_ind_r; [apply walk_root|].
    intros p c _ Hc Hp. by eapply walk_child.
Qed.

(** * The parent map *)

Lemma dict_of_pairs_list_to_map ps :
  dict_of_pairs ps
  = list_to_map (reverse ((fun cp => (nid cp.1, Some cp.2)) <$> ps)).
Proof.
  unfold dict_of_pairs. induction ps as [|cp ps IH] using rev_ind; [done|].
  rewrite foldl_snoc, fmap_app, reverse_app. simpl. by rewrite IH.
Qed.

Lemma dict_of_pairs_lookup_Some ps k v :
  dict_of_pairs ps !! k = Some v →
  ∃ c p, (c, p) ∈ ps ∧ nid c = k ∧ v = Some p.
Proof.
  rewrite dict_of_pairs_list_to_map. intros H%elem_of_list_to_map_2.
  apply elem_of_reverse, list_elem_of_fmap in H as ([c p] & [= -> ->] & Hin).
  eauto.
Qed.

Lemma dict_of_pairs_lookup ps c p :
  NoDup (nid <$> ps.*1) → (c, p) ∈ ps →
  dict_of_pairs ps !! nid c = Some (Some p).
Proof.
  intros Hnd Hin. rewrite dict_of_pairs_list_to_map.
  apply elem_of_list_to_map_1.
  - rewrite fmap_reverse, reverse_Permutation, <- list_fmap_compose.
    by rewrite <- list_fmap_compose in Hnd.
  - apply elem_of_reverse, list_elem_of_fmap. by exists (c, p).
Qed.

Lemma child_parent_pairs_fst tree :
  (child_parent_pairs tree).*1 = walk tree ≫= iter_child_nodes.
Proof.
  unfold child_parent_pairs. induction (walk tree) as [|p l IH]; [done|].
  csimpl. rewrite fmap_app, IH. f_equal.
  induction (iter_child_nodes p) as [|c cs IHc]; [done|].
  csimpl. by rewrite IHc.
Qed.

Lemma elem_of_child_parent_pairs tree c p :
  (c, p) ∈ child_parent_pairs tree ↔ p ∈ walk tree ∧ c ∈ iter_child_nodes p.
Proof.
  unfold child_parent_pairs. rewrite list_elem_of_bind. split.
  - intros (p' & (c' & [= -> ->]%list_elem_of_singleton & Hc)%list_elem_of_bind & Hp).
    done.
  - intros [Hp Hc]. exists p. split; [|done].
    apply list_elem_of_bind. exists c. split; [left|done].
Qed.

Lemma well_formed_children tree :
  well_formed tree →
  (nid tree ∉ nid <$> (walk tree ≫= iter_child_nodes))
  ∧ NoDup (nid <$> (walk tree ≫= iter_child_nodes)).
Proof.
  unfold well_formed. rewrite walk_unfold at 1. rewrite fmap_cons.
  apply NoDup_cons.
Qed.

Lemma build_parent_map_root tree :
  build_parent_map tree !! nid tree = Some None.
Proof.
  unfold build_parent_map, dict_or.
  apply lookup_union_Some_l, lookup_singleton_eq.
Qed.

Lemma build_parent_map_child tree p c :
  well_formed tree → p ∈ walk tree → c ∈ iter_child_nodes p →
  build_parent_map tree !! nid c = Some (Some p).
Proof.
  intros [Hroot Hnd]%well_formed_children Hp Hc.
  unfold build_parent_map, dict_or.
  rewrite lookup_union_r.
  - apply dict_of_pairs_lookup.
    + by rewrite child_parent_pairs_fst.
    + by apply elem_of_child_parent_pairs.
  - apply lookup_singleton_ne. intros Heq. apply Hroot. rewrite Heq.
    apply list_elem_of_fmap_2, list_elem_of_bind. eauto.
Qed.

Lemma build_parent_map_keys tree k v :
  build_parent_map tree !! k = Some v → ∃ x, x ∈ walk tree ∧ nid x = k.
Proof.
  unfold build_parent_map, dict_or.
  intros [H|[_ H]]%lookup_union_Some_raw.
  - apply lookup_singleton_Some in H as [<- _]. exists tree.
    split; [apply walk_root|done].
  - apply dict_of_pairs_lookup_Some in H as (c & p & Hin & Hk & _).
    apply elem_of_child_parent_pairs in Hin as [Hp Hc].
    exists c. split; [by eapply walk_child|done].
Qed.

Lemma walk_parent tree x :
  x ∈ walk tree → x = tree ∨ ∃ p, p ∈ walk tree ∧ x ∈ iter_child_nodes p.
Proof.
  rewrite walk_unfold at 1. intros [->|Hx]%elem_of_cons; [by left|right].
  apply list_elem_of_bind in Hx as (p & Hc & Hp). eauto.
Qed.

(** * Naming auditor *)

(** On the names of the tree model, over the code points below 256,
    the two disjuncts of [_violates_snake] are the same test. *)
Lemma snake_disjuncts_latin1 :
  (∀ name : string,
     name ≠ Py.lower name
     ↔ ∃ c, c ∈ Py.chars name ∧ c ≠ Py.underscore ∧ Py.isupper c = true)
  ∧ (∀ name : string,
       Py.str_ne name (Py.lower name)
       = existsb Py.isupper
           (filter (fun c => c ≠ Py.underscore) (Py.chars name)))
  ∧ _violates_snake "getValue" = true
  ∧ _violates_snake "get_value" = false.
Proof.
  split; [|split; [|split; reflexivity]].
  - intros name. rewrite <- str_ne_spec, str_ne_lower, existsb_elem_of.
    split.
    + intros (c & Hin & Hup). exists c.
      split; [done|]. split; [by apply isupper_not_underscore|done].
    + intros (c & Hin & _ & Hup). eauto.
  - intros name. by rewrite str_ne_lower, existsb_isupper_filter.
Qed.

Lemma violates_camel_spec name :
  _violates_camel name = true
  ↔ ¬ (∃ c0 rest, name = String c0 rest ∧ Py.isupper c0 = true
                  ∧ Py.underscore ∉ Py.chars name).
Proof.
  assert (∀ s, Py.contains Py.underscore s = true
               ↔ Py.underscore ∈ Py.chars s) as Hcontains.
  { intros s. unfold Py.contains. rewrite existsb_elem_of. split.
    - intros (c & Hin & ->%Ascii.eqb_eq). done.
    - intros Hin. exists Py.underscore. split; [done|]. apply Ascii.eqb_refl. }
  unfold _violates_camel. destruct name as [|c0 rest].
  - split; [|done]. intros _ (c & r & [=] & _).
  - rewrite negb_true_iff, andb_false_iff, negb_false_iff, Hcontains.
    split.
    + intros [Hup|Hin] (c & r & [= <- <-] & Hup' & Hnin); [congruence|done].
    + intros Hnot. destruct (Py.isupper c0) eqn:Hup; [|by left].
      right. destruct (decide (Py.underscore ∈ Py.chars (String c0 rest)));
        [done|]. exfalso. apply Hnot. eauto.
Qed.

(** C4: a class node of the tree is reported by the naming auditor
    exactly when it is not the case that its name starts with an
    uppercase character and holds no underscore; [foo_bar] is
    reported. *)
Theorem class_naming_rule tree parents cls :
  cls ∈ walk tree → is_ClassDef cls = true →
  (name_of cls ∈ (naming_violations tree parents).1
   ↔ ¬ (∃ c0 rest, name_of cls = String c0 rest ∧ Py.isupper c0 = true
                   ∧ Py.underscore ∉ Py.chars (name_of cls)))
  ∧ _violates_camel "foo_bar" = true.
Proof.
  intros Hin Hcls. split; [|reflexivity].
  rewrite <- violates_camel_spec. simpl.
  rewrite elem_of_sorted_set, elem_of_list_to_set, list_elem_of_fmap.
  setoid_rewrite list_elem_of_filter. split.
  - intros (c & -> & Hc & _). apply andb_prop_elim in Hc as [_ Hc].
    by apply Is_true_true.
  - intros Hv. exists cls. split; [done|]. split; [|done].
    rewrite Hcls, Hv. done.
Qed.

(** The class-based checker tests the first character only: a class
    name with an underscore passes it. *)
Lemma a1_class_check_ignores_underscore :
  A1.class_violation "Foo_bar" = Some false
  ∧ _violates_camel "Foo_bar" = true.
Proof. split; reflexivity. Qed.

Lemma a1_function_violation_spec name :
  A1.function_violation name = true
  ↔ ∃ c, c ∈ Py.chars name ∧ Py.islower c = false ∧ c ≠ Py.underscore.
Proof.
  unfold A1.function_violation.
  rewrite andb_true_iff, negb_true_iff, str_ne_spec.
  assert (forallb (fun x => Py.islower x || Ascii.eqb x Py.underscore)
            (Py.chars name) = false
          ↔ ∃ c, c ∈ Py.chars name ∧ Py.islower c = false
                 ∧ c ≠ Py.underscore) as Hall.
  { induction (Py.chars name) as [|c l IH].
    - split; [done|]. by intros (c & ?%elem_of_nil & _).
    - cbn [forallb]. rewrite andb_false_iff, IH, orb_false_iff.
      split.
      + intros [[Hlow Hus]|(x & Hin & Hx)].
        * exists c. split; [left|]. split; [done|].
          intros ->. by rewrite Ascii.eqb_refl in Hus.
        * exists x. split; [by right|done].
      + intros (x & [->|Hin]%elem_of_cons & Hlow & Hus).
        * left. split; [done|]. by apply Ascii.eqb_neq.
        * right. eauto. }
  rewrite Hall. split; [by intros [? _]|]. intros Hex. split; [done|].
  intros ->. apply Hall in Hex. vm_compute in Hex. discriminate Hex.
Qed.

(** C10: a name that the functional checker's [_violates_snake]
    rejects is rejected by the class-based checker's test as well, and
    the two tests agree on every name made of cased letters and
    underscores.  They differ exactly on the names that pass
    [_violates_snake] and have a character that is neither lowercase
    nor an underscore: those the class-based checker alone reports. *)
Theorem snake_checks_compared name :
  (_violates_snake name = true → A1.function_violation name = true)
  ∧ ((∀ c, c ∈ Py.chars name →
        Py.isupper c = true ∨ Py.islower c = true ∨ c = Py.underscore) →
     A1.function_violation name = _violates_snake name)
  ∧ (A1.function_violation name ≠ _violates_snake name
     ↔ _violates_snake name = false
       ∧ ∃ c, c ∈ Py.chars name ∧ Py.islower c = false
              ∧ c ≠ Py.underscore).
Proof.
  split; [apply snake_violation_is_a1_violation|].
  split; [|pose proof (snake_violation_is_a1_violation name) as Hsub;
           rewrite <- a1_function_violation_spec;
           destruct (_violates_snake name), (A1.function_violation name);
           intuition congruence].
  intros Hcased. rewrite violates_snake_upper.
  destruct (existsb Py.isupper (Py.chars name)) eqn:Hup.
  - apply existsb_elem_of in Hup as (c & Hin & Hup).
    by apply (upper_char_violates_a1 name c).
  - unfold A1.function_violation.
    assert (forallb (fun x => Py.islower x || Ascii.eqb x Py.underscore)
              (Py.chars name) = true) as ->; [|done].
    apply forallb_elem_of. intros c Hin.
    destruct (Hcased c Hin) as [Hc|[Hc|Hc]].
    + assert (existsb Py.isupper (Py.chars name) = true); [|congruence].
      apply existsb_elem_of. eauto.
    + by rewrite Hc.
    + subst c. apply orb_true_r.
Qed.

Lemma snake_checks_compared_witness :
  A1.function_violation "get_value" = _violates_snake "get_value".
Proof.
  destruct (snake_checks_compared "get_value") as (_ & Hsame & _).
  apply Hsame.
  intros c Hin. simpl in Hin.
  repeat (apply elem_of_cons in Hin as [->|Hin];
          [vm_compute; auto|]).
  by apply elem_of_nil in Hin.
Defined.

(** The digit in [get2] is neither lowercase nor an underscore, so the
    class-based checker reports the name; the functional checker does
    not. *)
Lemma snake_checks_differ :
  A1.function_violation "get2" ≠ _violates_snake "get2".
Proof. vm_compute. discriminate. Qed.

Lemma class_naming_rule_witness :
  (name_of (ANode Sample.Foo)
     ∈ (naming_violations Sample.scenario
          (build_parent_map Sample.scenario)).1
   ↔ ¬ (∃ c0 rest, name_of (ANode Sample.Foo) = String c0 rest
                   ∧ Py.isupper c0 = true
                   ∧ Py.underscore ∉ Py.chars (name_of (ANode Sample.Foo))))
  ∧ _violates_camel "foo_bar" = true.
Proof.
  apply (class_naming_rule Sample.scenario
           (build_parent_map Sample.scenario) (ANode Sample.Foo)).
  - vm_compute. repeat constructor.
  - reflexivity.
Defined.

(** * Parent-map builder *)

(** C5: on a well-formed tree the parent map has the root under the
    none value and every other object of the tree under its immediate
    parent, which is the only object of the tree holding it; the map
    has no other key. *)
Theorem build_parent_map_total tree :
  well_formed tree →
  build_parent_map tree !! nid tree = Some None
  ∧ (∀ x, in_tree tree x → x ≠ tree →
       ∃ p, build_parent_map tree !! nid x = Some (Some p)
            ∧ in_tree tree p ∧ child_of p x
            ∧ ∀ p', in_tree tree p' → child_of p' x → p' = p)
  ∧ (∀ k, is_Some (build_parent_map tree !! k) →
       ∃ x, in_tree tree x ∧ nid x = k).
Proof.
  intros Hwf. split; [apply build_parent_map_root|]. split.
  - intros x Hx Hne. apply elem_of_walk in Hx.
    destruct (walk_parent tree x Hx) as [->|(p & Hp & Hc)]; [done|].
    exists p. split; [by apply build_parent_map_child|].
    split; [by apply elem_of_walk|]. split; [done|].
    intros p' Hp' Hc'. apply elem_of_walk in Hp'.
    pose proof (build_parent_map_child tree p x Hwf Hp Hc) as H1.
    pose proof (build_parent_map_child tree p' x Hwf Hp' Hc') as H2.
    congruence.
  - intros k [v Hv]. apply build_parent_map_keys in Hv as (x & Hx & Hk).
    exists x. split; [by apply elem_of_walk|done].
Qed.

Lemma build_parent_map_total_witness :
  build_parent_map Sample.scenario !! nid Sample.scenario = Some None
  ∧ (∀ x, in_tree Sample.scenario x → x ≠ Sample.scenario →
       ∃ p, build_parent_map Sample.scenario !! nid x = Some (Some p)
            ∧ in_tree Sample.scenario p ∧ child_of p x
            ∧ ∀ p', in_tree Sample.scenario p' → child_of p' x → p' = p)
  ∧ (∀ k, is_Some (build_parent_map Sample.scenario !! k) →
       ∃ x, in_tree Sample.scenario x ∧ nid x = k).
Proof.
  apply (build_parent_map_total Sample.scenario).
  apply (bool_decide_unpack _). vm_compute. exact I.
Defined.

(** * Annotation auditor *)

Lemma qualified_name_method parents fn cls :
  parents !! nid fn = Some (Some cls) → is_ClassDef cls = true →
  is_method fn parents = true
  ∧ qualified_name parents fn = (name_of cls ++ "." ++ name_of fn)%string.
Proof.
  intros Hp Hcls. unfold qualified_name, is_method, parent_name. rewrite Hp.
  destruct cls as [[]| | |]; try discriminate Hcls. done.
Qed.

Lemma missing_type_annotations_Permutation tree parents :
  missing_type_annotations tree parents
  ≡ₚ qualified_name parents
       <$> filter (fun n => is_FunctionDef n && incomplete n) (walk tree).
Proof. unfold missing_type_annotations, sorted. apply merge_sort_Permutation. Qed.

Lemma elem_of_missing_type_annotations tree parents name :
  name ∈ missing_type_annotations tree parents
  ↔ ∃ fn, fn ∈ walk tree ∧ is_FunctionDef fn = true ∧ incomplete fn = true
          ∧ qualified_name parents fn = name.
Proof.
  rewrite missing_type_annotations_Permutation, list_elem_of_fmap.
  setoid_rewrite list_elem_of_filter. split.
  - intros (fn & -> & [Hf Hi]%andb_prop_elim & Hin).
    exists fn. by repeat split; try apply Is_true_true.
  - intros (fn & Hin & Hf & Hi & <-). exists fn.
    split; [done|]. split; [|done]. by rewrite Hf, Hi.
Qed.

(** C1: a function node is incomplete exactly when a parameter of its
    ordinary parameter list has no annotation or its return type has
    none; no other parameter is looked at, so two functions with the
    same ordinary parameters and return annotation are judged alike.
    The report holds one qualified name per incomplete function node
    of the tree. *)
Theorem annotation_rule tree parents fn :
  fn ∈ walk tree → is_FunctionDef fn = true →
  (incomplete fn = true
   ↔ (∃ a, a ∈ ordinary_params fn ∧ annotation_is_None a = true)
     ∨ returns_of fn = None)
  ∧ (∀ g, is_FunctionDef g = true →
       ordinary_params g = ordinary_params fn →
       returns_of g = returns_of fn → incomplete g = incomplete fn)
  ∧ missing_type_annotations tree parents
    ≡ₚ qualified_name parents
         <$> filter (fun n => is_FunctionDef n && incomplete n) (walk tree)
  ∧ (incomplete fn = true →
     qualified_name parents fn ∈ missing_type_annotations tree parents).
Proof.
  intros Hin Hfn.
  assert (∀ g, is_FunctionDef g = true →
               incomplete g
               = existsb annotation_is_None (ordinary_params g)
                 || bool_decide (returns_of g = None)) as Hinc.
  { intros [[| |i name [] body dl [r|]| | | | |]| | |]; try discriminate; done. }
  split; [|split; [|split]].
  - rewrite (Hinc fn Hfn), orb_true_iff, existsb_elem_of, bool_decide_eq_true.
    done.
  - intros g Hg Hargs Hret. rewrite (Hinc g Hg), (Hinc fn Hfn).
    by rewrite Hargs, Hret.
  - apply missing_type_annotations_Permutation.
  - intros Hi. apply elem_of_missing_type_annotations. eauto.
Qed.

Lemma annotation_rule_witness :
  incomplete (ANode Sample.bar) = true
  ∧ qualified_name (build_parent_map Sample.scenario) (ANode Sample.bar)
      ∈ missing_type_annotations Sample.scenario
          (build_parent_map Sample.scenario).
Proof.
  destruct (annotation_rule Sample.scenario
              (build_parent_map Sample.scenario) (ANode Sample.bar))
    as (_ & _ & _ & Hrep).
  - vm_compute. repeat constructor.
  - reflexivity.
  - split; [reflexivity|]. apply Hrep. reflexivity.
Defined.

(** A function whose starred catch-all parameter has no annotation is
    not incomplete, and the report does not name it. *)
Lemma unannotated_star_args_not_reported :
  (∃ a, a ∈ catch_all_params (ANode Sample.f_star)
        ∧ annotation_is_None a = true)
  ∧ ANode Sample.f_star ∈ walk Sample.star_args
  ∧ incomplete (ANode Sample.f_star) = false
  ∧ missing_type_annotations Sample.star_args
      (build_parent_map Sample.star_args) = [].
Proof.
  split; [|split; [|split]].
  - exists (Arg 4 "args" None). split; [left|reflexivity].
  - vm_compute. repeat constructor.
  - reflexivity.
  - reflexivity.
Qed.

(** * Qualified names *)

(** C2: for a function node of the tree whose parent in the parent map
    is a class, the documentation entry, the missing-annotation entry
    and the naming-violation entry all carry the same name, the
    class name, a dot and the function name. *)
Theorem method_names_agree cleandoc tree parents fn cls :
  fn ∈ walk tree → is_FunctionDef fn = true →
  parents !! nid fn = Some (Some cls) → is_ClassDef cls = true →
  let q := (name_of cls ++ "." ++ name_of fn)%string in
  (∃ text, fmt cleandoc parents fn = (q ++ ": " ++ text)%string)
  ∧ fmt cleandoc parents fn ∈ docstring_entries cleandoc tree parents
  ∧ (incomplete fn = true → q ∈ missing_type_annotations tree parents)
  ∧ (_violates_snake (name_of fn) = true →
     q ∈ (naming_violations tree parents).2).
Proof.
  intros Hin Hfn Hp Hcls q.
  destruct (qualified_name_method parents fn cls Hp Hcls) as [Hm Hq].
  unfold qualified_name in Hq. rewrite Hm in Hq.
  split; [|split; [|split]].
  - unfold fmt. rewrite Hfn, Hm. simpl. rewrite Hq. fold q.
    destruct (get_docstring cleandoc fn) as [d|]; [destruct (Py.truthy d)|];
      eauto.
  - unfold docstring_entries. apply list_elem_of_fmap_2, list_elem_of_filter.
    split; [|done]. rewrite Hfn. by rewrite orb_true_r.
  - intros Hi. apply elem_of_missing_type_annotations. exists fn.
    unfold qualified_name. by rewrite Hm.
  - intros Hv. simpl. apply elem_of_sorted_set, elem_of_list_to_set.
    apply list_elem_of_fmap. exists fn. rewrite Hm. split; [done|].
    apply list_elem_of_filter. split; [|done]. by rewrite Hfn, Hv.
Qed.

Lemma method_names_agree_witness :
  (∃ text, fmt id (build_parent_map Sample.scenario) (ANode Sample.bar)
           = ("Foo.bar" ++ ": " ++ text)%string)
  ∧ fmt id (build_parent_map Sample.scenario) (ANode Sample.bar)
      ∈ docstring_entries id Sample.scenario
          (build_parent_map Sample.scenario)
  ∧ (incomplete (ANode Sample.bar) = true →
     "Foo.bar" ∈ missing_type_annotations Sample.scenario
                  (build_parent_map Sample.scenario))
  ∧ (_violates_snake "bar" = true →
     "Foo.bar" ∈ (naming_violations Sample.scenario
                    (build_parent_map Sample.scenario)).2).
Proof.
  apply (method_names_agree id Sample.scenario
           (build_parent_map Sample.scenario)
           (ANode Sample.bar) (ANode Sample.Foo)).
  - vm_compute. repeat constructor.
  - reflexivity.
  - vm_compute. reflexivity.
  - reflexivity.
Defined.

(** * Breadth-first order *)

Lemma levels_nil n : levels n [] = [].
Proof. induction n as [|n IH]; [done|]. simpl. exact IH. Qed.

Lemma sum_list_with_bind_children todo :
  sum_list_with size todo
  = length todo + sum_list_with size (todo ≫= iter_child_nodes).
Proof.
  induction todo as [|x todo IH]; [done|].
  csimpl. rewrite sum_list_with_app, (size_children x). lia.
Qed.

Lemma levels_fuel n m roots :
  sum_list_with size roots ≤ n → sum_list_with size roots ≤ m →
  levels n roots = levels m roots.
Proof.
  revert m roots. induction n as [|n IH]; intros [|m] roots Hn Hm; simpl.
  - done.
  - destruct roots as [|x roots]; [by rewrite levels_nil|].
    pose proof (size_pos x). simpl in Hn. lia.
  - destruct roots as [|x roots]; [by rewrite levels_nil|].
    pose proof (size_pos x). simpl in Hm. lia.
  - f_equal. destruct roots as [|x roots]; [by rewrite !levels_nil|].
    rewrite sum_list_with_bind_children in Hn, Hm.
    cbn [length] in Hn, Hm. apply IH; lia.
Qed.

(** Taking the nodes [front] off the queue one by one yields them and
    leaves their children at the back. *)
Lemma walk_loop_front fuel front back :
  length front ≤ fuel →
  walk_loop fuel (front ++ back)
  = front ++ walk_loop (fuel - length front)
               (back ++ (front ≫= iter_child_nodes)).
Proof.
  revert fuel back. induction front as [|x front IH]; intros fuel back Hfuel.
  - simpl. by rewrite Nat.sub_0_r, app_nil_r.
  - destruct fuel as [|fuel]; [simpl in Hfuel; lia|].
    simpl. f_equal. rewrite <- app_assoc, IH by (simpl in Hfuel; lia).
    by rewrite <- app_assoc.
Qed.

Lemma walk_loop_levels fuel todo :
  sum_list_with size todo ≤ fuel → walk_loop fuel todo = levels fuel todo.
Proof.
  revert todo. induction (lt_wf fuel) as [fuel _ IH]. intros todo Hfuel.
  destruct todo as [|x rest]; [by rewrite levels_nil; destruct fuel|].
  destruct fuel as [|fuel]; [pose proof (size_pos x); simpl in Hfuel; lia|].
  rewrite sum_list_with_bind_children in Hfuel. cbn [length] in Hfuel.
  rewrite <- (app_nil_r (x :: rest)) at 1.
  rewrite walk_loop_front by (cbn [length]; lia). rewrite app_nil_l.
  cbn [levels length]. f_equal.
  rewrite IH by lia.
  apply levels_fuel; lia.
Qed.

(** [ast.walk] goes level by level. *)
Lemma walk_levels tree : walk tree = levels (size tree) [tree].
Proof. unfold walk. apply walk_loop_levels. simpl. lia. Qed.

(** * Documentation auditor *)

(** C7: the documentation auditor gives one entry per class and
    function node, in the order of the walk, which goes through the
    tree level by level; an entry is the name, qualified for a method,
    followed by the documentation text when [get_docstring] finds a
    non-empty one and by the marker ["DocString not found."]
    otherwise. *)
Theorem docstring_entries_rule cleandoc tree parents :
  let defs := filter (fun n => is_ClassDef n || is_FunctionDef n)
                (levels (size tree) [tree]) in
  let entry_name := fun n =>
    if is_FunctionDef n then qualified_name parents n else name_of n in
  docstring_entries cleandoc tree parents = fmt cleandoc parents <$> defs
  ∧ length (docstring_entries cleandoc tree parents) = length defs
  ∧ (∀ k n, defs !! k = Some n →
       docstring_entries cleandoc tree parents !! k
       = Some (fmt cleandoc parents n))
  ∧ (∀ n d, get_docstring cleandoc n = Some d → d ≠ ""%string →
       fmt cleandoc parents n = (entry_name n ++ ": " ++ d)%string)
  ∧ (∀ n, get_docstring cleandoc n = None
          ∨ get_docstring cleandoc n = Some ""%string →
       fmt cleandoc parents n
       = (entry_name n ++ ": DocString not found.")%string)
  ∧ (∀ n text, (∃ i j rest, body_of n = Expr i (Constant j (CStr text)) :: rest)
               → get_docstring cleandoc n = Some (cleandoc text)).
Proof.
  intros defs entry_name. subst defs. rewrite <- walk_levels.
  assert (∀ n, (if is_FunctionDef n && is_method n parents
                then (parent_name n parents ++ "." ++ name_of n)%string
                else name_of n) = entry_name n) as Hname.
  { intros n. unfold entry_name, qualified_name.
    by destruct (is_FunctionDef n), (is_method n parents). }
  split; [done|]. split; [unfold docstring_entries; by rewrite length_fmap|].
  split; [|split; [|split]].
  - intros k n Hk. unfold docstring_entries. by rewrite list_lookup_fmap, Hk.
  - intros n d Hd Hne. unfold fmt. rewrite Hd, Hname.
    by destruct d.
  - intros n [Hd|Hd]; unfold fmt; by rewrite Hd, Hname.
  - intros n text (i & j & rest & Hbody). unfold get_docstring.
    by rewrite Hbody.
Qed.

Lemma docstring_entries_rule_witness :
  docstring_entries id Sample.scenario (build_parent_map Sample.scenario)
    !! 1 = Some "baz: doc"%string
  ∧ fmt id (build_parent_map Sample.scenario) (ANode Sample.bar)
    = "Foo.bar: DocString not found."%string.
Proof.
  destruct (docstring_entries_rule id Sample.scenario
              (build_parent_map Sample.scenario))
    as (_ & _ & Hk & _ & Hnone & _).
  split.
  - apply (Hk 1 (ANode Sample.baz)). reflexivity.
  - apply (Hnone (ANode Sample.bar)). left. reflexivity.
Defined.

(** In the sample the method [Foo.bar] comes after the function [baz],
    which is defined below the class: the entries are not in
    pre-order.  The text ["doc"] has no indentation to clean. *)
Lemma docstring_entries_not_preorder :
  docstring_entries id Sample.scenario (build_parent_map Sample.scenario)
  = [ "Foo: DocString not found."; "baz: doc";
      "Foo.bar: DocString not found." ]%string
  ∧ fmt id (build_parent_map Sample.scenario)
      <$> filter (fun n => is_ClassDef n || is_FunctionDef n)
            (preorder Sample.scenario)
    = [ "Foo: DocString not found."; "Foo.bar: DocString not found.";
        "baz: doc" ]%string
  ∧ docstring_entries id Sample.scenario (build_parent_map Sample.scenario)
    ≠ fmt id (build_parent_map Sample.scenario)
        <$> filter (fun n => is_ClassDef n || is_FunctionDef n)
              (preorder Sample.scenario).
Proof. split; [|split]; vm_compute; [reflexivity|reflexivity|discriminate]. Qed.

(** * Structural inventory *)

Lemma sorted_set_of_list l :
  NoDup (sorted_set (list_to_set l))
  ∧ StronglySorted str_le (sorted_set (list_to_set l))
  ∧ ∀ x, x ∈ sorted_set (list_to_set l) ↔ x ∈ l.
Proof.
  split; [apply sorted_set_NoDup|]. split; [apply sorted_is_sorted|].
  intros x. by rewrite elem_of_sorted_set, elem_of_list_to_set.
Qed.

Lemma sorted_set_same_names l1 l2 :
  (∀ x : string, x ∈ l1 ↔ x ∈ l2) →
  sorted_set (list_to_set l1) = sorted_set (list_to_set l2).
Proof.
  intros Hsame. f_equal. apply set_eq. intros x.
  by rewrite !elem_of_list_to_set.
Qed.

Lemma packages_imported_names tree :
  packages_imported tree = sorted_set (list_to_set (imported_names tree)).
Proof.
  unfold packages_imported, imported_names. by rewrite list_to_set_app_L.
Qed.

(** C6: each of the three collections of the inventory holds the names
    found in the tree once each and in ascending order, and two trees
    with the same names give the same three collections. *)
Theorem inventory_sorted_deduplicated tree1 parents1 tree2 parents2 :
  (∀ x, x ∈ imported_names tree1 ↔ x ∈ imported_names tree2) →
  (∀ x, x ∈ class_names tree1 ↔ x ∈ class_names tree2) →
  (∀ x, x ∈ function_names tree1 parents1
        ↔ x ∈ function_names tree2 parents2) →
  Forall (fun l => NoDup l ∧ StronglySorted str_le l)
    [ packages_imported tree1; classes_defined tree1;
      functions_defined tree1 parents1 ]
  ∧ (∀ x, x ∈ packages_imported tree1 ↔ x ∈ imported_names tree1)
  ∧ (∀ x, x ∈ classes_defined tree1 ↔ x ∈ class_names tree1)
  ∧ (∀ x, x ∈ functions_defined tree1 parents1
          ↔ x ∈ function_names tree1 parents1)
  ∧ packages_imported tree1 = packages_imported tree2
  ∧ classes_defined tree1 = classes_defined tree2
  ∧ functions_defined tree1 parents1 = functions_defined tree2 parents2.
Proof.
  intros Himp Hcls Hfun. rewrite !packages_imported_names.
  unfold classes_defined, functions_defined.
  fold (class_names tree1) (class_names tree2)
    (function_names tree1 parents1) (function_names tree2 parents2).
  pose proof (sorted_set_of_list (imported_names tree1)) as (? & ? & ?).
  pose proof (sorted_set_of_list (class_names tree1)) as (? & ? & ?).
  pose proof (sorted_set_of_list (function_names tree1 parents1))
    as (? & ? & ?).
  split; [by repeat constructor|].
  repeat (split; [done|]).
  split; [|split]; by apply sorted_set_same_names.
Qed.

Lemma inventory_sorted_deduplicated_witness :
  classes_defined Sample.classes_b_a = classes_defined Sample.classes_a_b_a
  ∧ classes_defined Sample.classes_b_a = ["A"; "B"]%string.
Proof.
  destruct (inventory_sorted_deduplicated
              Sample.classes_b_a (build_parent_map Sample.classes_b_a)
              Sample.classes_a_b_a (build_parent_map Sample.classes_a_b_a))
    as (_ & _ & _ & _ & _ & Hcls & _).
  - intros x. reflexivity.
  - intros x.
    change (class_names Sample.classes_b_a) with ["B"; "A"]%string.
    change (class_names Sample.classes_a_b_a) with ["A"; "B"; "A"]%string.
    rewrite !elem_of_cons. tauto.
  - intros x. reflexivity.
  - split; [exact Hcls|]. vm_compute. reflexivity.
Defined.

Lemma elem_of_import_names x name :
  name ∈ import_names x
  ↔ ∃ i names a, x = ANode (Import i names) ∧ a ∈ names
                 ∧ alias_name a = name.
Proof.
  split.
  - destruct x as [[]| | |]; simpl; try (by intros ?%elem_of_nil).
    intros (a & -> & Ha)%list_elem_of_fmap. eauto 6.
  - intros (i & names & a & -> & Ha & <-). simpl.
    by apply list_elem_of_fmap_2.
Qed.

Lemma elem_of_import_from_module x name :
  name ∈ import_from_module x
  ↔ ∃ i names level, x = ANode (ImportFrom i (Some name) names level)
                     ∧ name ≠ ""%string.
Proof.
  split.
  - destruct x as [[| | | |i [m|] names level| | |]| | |]; simpl;
      try (by intros ?%elem_of_nil).
    destruct m as [|c m]; simpl; [by intros ?%elem_of_nil|].
    intros ->%list_elem_of_singleton. eauto 6.
  - intros (i & names & level & -> & Hne). simpl.
    destruct name; [done|]. simpl. left.
Qed.

(** C9: a from-import without a module name adds nothing to the
    imported names; the names are the alias names of the plain imports
    and the non-empty module names of the from-imports. *)
Theorem from_import_needs_module tree :
  (∀ i names level,
     import_from_module (ANode (ImportFrom i None names level)) = []
     ∧ import_names (ANode (ImportFrom i None names level)) = [])
  ∧ (∀ name,
       name ∈ packages_imported tree
       ↔ (∃ i names a, ANode (Import i names) ∈ walk tree ∧ a ∈ names
                       ∧ alias_name a = name)
         ∨ (∃ i names level,
              ANode (ImportFrom i (Some name) names level) ∈ walk tree
              ∧ name ≠ ""%string))
  ∧ packages_imported Sample.relative_import = [].
Proof.
  split; [done|]. split; [|reflexivity].
  intros name. rewrite packages_imported_names.
  destruct (sorted_set_of_list (imported_names tree)) as (_ & _ & ->).
  unfold imported_names. rewrite elem_of_app, !list_elem_of_bind.
  setoid_rewrite elem_of_import_names.
  setoid_rewrite elem_of_import_from_module.
  split; (intros [H|H]; [left|right]).
  - destruct H as (x & (i & names & a & -> & Ha & Hn) & Hx). eauto 6.
  - destruct H as (x & (i & names & level & -> & Hne) & Hx). eauto 6.
  - destruct H as (i & names & a & Hx & Ha & Hn). eauto 10.
  - destruct H as (i & names & level & Hx & Hne). eauto 10.
Qed.

(** * Report renderer *)

Lemma filter_none {A} (P : A → Prop) `{∀ x, Decision (P x)} (l : list A) :
  Forall (fun x => ¬ P x) l → filter P l = [].
Proof.
  induction 1 as [|x l Hx _ IH]; [done|].
  by rewrite filter_cons, decide_False.
Qed.

Lemma bind_none {A B} (f : A → list B) (l : list A) :
  Forall (fun x => f x = []) l → l ≫= f = [].
Proof. induction 1 as [|x l Hx _ IH]; [done|]. csimpl. by rewrite Hx, IH. Qed.

Lemma plain_collections tree parents cleandoc :
  Forall (fun x => plain x = true) (walk tree) →
  packages_imported tree = [] ∧ classes_defined tree = []
  ∧ functions_defined tree parents = []
  ∧ docstring_entries cleandoc tree parents = []
  ∧ missing_type_annotations tree parents = []
  ∧ naming_violations tree parents = ([], []).
Proof.
  intros Hplain.
  assert (∀ P : ast → bool,
            (∀ x, P x = true → plain x = false) →
            filter (fun x => P x) (walk tree) = []) as Hfilter.
  { intros P HP. apply filter_none. eapply Forall_impl; [exact Hplain|].
    intros x Hx HPx%Is_true_true. simpl in Hx. specialize (HP x HPx).
    congruence. }
  assert (∀ f : ast → list string,
            (∀ x, plain x = true → f x = []) → walk tree ≫= f = [])
    as Hbind.
  { intros f Hf. apply bind_none. eapply Forall_impl; [exact Hplain|].
    exact Hf. }
  unfold packages_imported, classes_defined, functions_defined,
    docstring_entries, missing_type_annotations, naming_violations.
  rewrite !Hbind, !Hfilter; first done.
  all: intros [[]| | |]; simpl; try done.
  all: try (intros [? ?]%andb_prop; done).
Qed.

(** C8: for a tree without import, class or function nodes the report
    has every header; the three inventory lines say [None], the
    annotation and naming sections state compliance, and the
    documentation section is its header alone. *)
Theorem report_of_plain_tree cleandoc name lines tree :
  Forall (fun x => plain x = true) (walk tree) →
  let body :=
    [ ("File analysed: " ++ name)%string;
      ("Total number of lines of code: " ++ pretty (length lines))%string;
      ""; "File Structure"; "Packages imported: None";
      "Classes defined: None"; "Functions defined: None";
      ""; "DocStrings";
      ""; "Type Annotation Check";
      "All functions and methods use type annotations.";
      ""; "Naming Convention Check";
      "All names adhere to the specified conventions." ]%string in
  report_of cleandoc name lines tree = Py.join (String "010" "") body
  ∧ sections body
    = [ [ ("File analysed: " ++ name)%string;
          ("Total number of lines of code: " ++ pretty (length lines))%string ];
        [ "File Structure"; "Packages imported: None";
          "Classes defined: None"; "Functions defined: None" ];
        [ "DocStrings" ];
        [ "Type Annotation Check";
          "All functions and methods use type annotations." ];
        [ "Naming Convention Check";
          "All names adhere to the specified conventions." ] ]%string.
Proof.
  intros Hplain body.
  destruct (plain_collections tree (build_parent_map tree) cleandoc Hplain)
    as (Hp & Hc & Hf & Hd & Hm & Hn).
  split; [|reflexivity].
  unfold report_of. rewrite Hp, Hc, Hf, Hd, Hm, Hn. reflexivity.
Qed.

Lemma report_of_plain_tree_witness :
  report_of id "empty.py" [] Sample.empty_module
  = Py.join (String "010" "")
      [ "File analysed: empty.py"; "Total number of lines of code: 0";
        ""; "File Structure"; "Packages imported: None";
        "Classes defined: None"; "Functions defined: None";
        ""; "DocStrings";
        ""; "Type Annotation Check";
        "All functions and methods use type annotations.";
        ""; "Naming Convention Check";
        "All names adhere to the specified conventions." ]%string.
Proof.
  apply (report_of_plain_tree id "empty.py" [] Sample.empty_module).
  vm_compute. repeat constructor.
Defined.

(** The report of the empty file has a documentation section with
    nothing under its header. *)
Lemma empty_report_has_empty_section :
  sections (report_lines "empty.py" 0 [] [] [] [] [] [] []) !! 2
  = Some ["DocStrings"%string]
  ∧ ¬ Forall (fun sec => tail sec ≠ [])
        (sections (report_lines "empty.py" 0 [] [] [] [] [] [] []))
  ∧ render_report "empty.py" 0 [] [] [] [] [] [] []
    = report_of id "empty.py" [] Sample.empty_module.
Proof.
  split; [reflexivity|]. split; [|reflexivity].
  intros Hall. rewrite Forall_lookup in Hall.
  by apply (Hall 2 ["DocStrings"%string]).
Qed.

(** * Methods and the built parent map *)

Lemma is_method_built tree x :
  well_formed tree → x ∈ walk tree →
  is_method x (build_parent_map tree) = true
  ↔ ∃ cls, cls ∈ walk tree ∧ is_ClassDef cls = true ∧ child_of cls x.
Proof.
  intros Hwf Hx. unfold is_method. split.
  - destruct (walk_parent tree x Hx) as [->|(p & Hp & Hc)].
    + by rewrite build_parent_map_root.
    + rewrite (build_parent_map_child tree p x Hwf Hp Hc).
      intros Hcls. exists p. split; [done|]. split; [|done].
      by destruct p as [[]| | |].
  - intros (cls & Hcls & His & Hc).
    rewrite (build_parent_map_child tree cls x Hwf Hcls Hc).
    by destruct cls as [[]| | |].
Qed.

(** With the parent map built from a well-formed tree, [is_method]
    holds for an object of the tree exactly when the object that holds
    it is a class: a function in the body of a class is a method, a
    function nested deeper (below an [if], inside another function) is
    not. *)
Theorem is_method_iff_parent_is_class tree x :
  well_formed tree → x ∈ walk tree →
  is_method x (build_parent_map tree) = true
  ↔ ∃ cls, cls ∈ walk tree ∧ is_ClassDef cls = true ∧ child_of cls x.
Proof. apply is_method_built. Qed.

Lemma is_method_iff_parent_is_class_witness :
  is_method (ANode Sample.bar) (build_parent_map Sample.scenario) = true
  ↔ ∃ cls, cls ∈ walk Sample.scenario ∧ is_ClassDef cls = true
           ∧ child_of cls (ANode Sample.bar).
Proof.
  apply (is_method_iff_parent_is_class Sample.scenario (ANode Sample.bar)).
  - apply (bool_decide_unpack _). vm_compute. exact I.
  - vm_compute. repeat constructor.
Defined.

Lemma dom_build_parent_map tree :
  dom (build_parent_map tree) = list_to_set (nid <$> walk tree).
Proof.
  apply set_eq. intros k. rewrite elem_of_dom, elem_of_list_to_set,
    list_elem_of_fmap. split.
  - intros [v Hv]. apply build_parent_map_keys in Hv as (x & Hx & Hk). eauto.
  - intros (x & -> & Hx). destruct (walk_parent tree x Hx) as [->|(p & Hp & Hc)].
    + rewrite build_parent_map_root. eauto.
    + unfold build_parent_map, dict_or.
      destruct (decide (nid x = nid tree)) as [Heq|Hne].
      * rewrite Heq. erewrite lookup_union_Some_l; [eauto|].
        apply lookup_singleton_eq.
      * rewrite lookup_union_r by by apply lookup_singleton_ne.
        rewrite dict_of_pairs_list_to_map.
        apply elem_of_dom. rewrite dom_list_to_map_L.
        apply elem_of_list_to_set. rewrite fmap_reverse, elem_of_reverse.
        apply list_elem_of_fmap. exists (nid x, Some p). split; [done|].
        apply list_elem_of_fmap. exists (x, p). split; [done|].
        by apply elem_of_child_parent_pairs.
Qed.

(** The parent map of a well-formed tree has one entry per object of
    the tree, the root included. *)
Theorem build_parent_map_size tree :
  well_formed tree → base.size (build_parent_map tree) = size tree.
Proof.
  intros Hwf. rewrite <- size_dom, dom_build_parent_map.
  rewrite size_list_to_set by done. by rewrite length_fmap, walk_length.
Qed.

Lemma build_parent_map_size_witness :
  base.size (build_parent_map Sample.scenario) = size Sample.scenario.
Proof.
  apply (build_parent_map_size Sample.scenario).
  apply (bool_decide_unpack _). vm_compute. exact I.
Defined.

(** The keys of the parent map are the identities met by the walk,
    whether or not the tree shares objects; the root is always stored
    under none, even when it also occurs as a child. *)
Theorem build_parent_map_keys_root tree :
  dom (build_parent_map tree) = list_to_set (nid <$> walk tree)
  ∧ build_parent_map tree !! nid tree = Some None
  ∧ ∀ x, nid x ∉ (nid <$> walk tree) →
         build_parent_map tree !! nid x = None
         ∧ is_method x (build_parent_map tree) = false.
Proof.
  split; [apply dom_build_parent_map|]. split; [apply build_parent_map_root|].
  intros x Hx.
  assert (build_parent_map tree !! nid x = None) as Hnone.
  { apply not_elem_of_dom. rewrite dom_build_parent_map.
    by rewrite elem_of_list_to_set. }
  split; [done|]. unfold is_method. by rewrite Hnone.
Qed.

Lemma build_parent_map_keys_root_witness :
  build_parent_map Sample.scenario !! nid (ANode (Other 99 [])) = None
  ∧ is_method (ANode (Other 99 [])) (build_parent_map Sample.scenario) = false.
Proof.
  destruct (build_parent_map_keys_root Sample.scenario) as (_ & _ & Hout).
  apply (Hout (ANode (Other 99 []))).
  apply (bool_decide_unpack _). vm_compute. exact I.
Defined.

(** * Inventory and auditors together *)

Lemma elem_of_functions_defined tree parents name :
  name ∈ functions_defined tree parents
  ↔ ∃ fn, fn ∈ walk tree ∧ is_FunctionDef fn = true
          ∧ is_method fn parents = false ∧ name_of fn = name.
Proof.
  unfold functions_defined.
  rewrite elem_of_sorted_set, elem_of_list_to_set, list_elem_of_fmap.
  setoid_rewrite list_elem_of_filter. split.
  - intros (fn & -> & [Hf Hm]%andb_prop_elim & Hin). exists fn.
    apply Is_true_true in Hf. apply Is_true_true, negb_true_iff in Hm. done.
  - intros (fn & Hin & Hf & Hm & <-). exists fn. split; [done|].
    split; [|done]. by rewrite Hf, Hm.
Qed.

(** A name is listed among the functions defined exactly when the tree
    has a function node of that name that no class holds directly; a
    name borne by methods only is left out, a name shared by a method
    and a function is kept. *)
Theorem functions_defined_excludes_methods tree name :
  well_formed tree →
  name ∈ functions_defined tree (build_parent_map tree)
  ↔ ∃ fn, fn ∈ walk tree ∧ is_FunctionDef fn = true ∧ name_of fn = name
          ∧ ¬ ∃ cls, cls ∈ walk tree ∧ is_ClassDef cls = true
                     ∧ child_of cls fn.
Proof.
  intros Hwf. rewrite elem_of_functions_defined. split.
  - intros (fn & Hin & Hf & Hm & Hn). exists fn. repeat split; try done.
    rewrite <- (is_method_built tree fn Hwf Hin). congruence.
  - intros (fn & Hin & Hf & Hn & Hnot). exists fn. repeat split; try done.
    apply not_true_is_false.
    by rewrite (is_method_built tree fn Hwf Hin).
Qed.

Lemma functions_defined_excludes_methods_witness :
  "baz"%string ∈ functions_defined Sample.scenario
                  (build_parent_map Sample.scenario)
  ↔ ∃ fn, fn ∈ walk Sample.scenario ∧ is_FunctionDef fn = true
          ∧ name_of fn = "baz"%string
          ∧ ¬ ∃ cls, cls ∈ walk Sample.scenario ∧ is_ClassDef cls = true
                     ∧ child_of cls fn.
Proof.
  apply (functions_defined_excludes_methods Sample.scenario "baz").
  apply (bool_decide_unpack _). vm_compute. exact I.
Defined.

Lemma elem_of_classes_defined tree name :
  name ∈ classes_defined tree
  ↔ ∃ cls, cls ∈ walk tree ∧ is_ClassDef cls = true ∧ name_of cls = name.
Proof.
  unfold classes_defined.
  rewrite elem_of_sorted_set, elem_of_list_to_set, list_elem_of_fmap.
  setoid_rewrite list_elem_of_filter. split.
  - intros (c & -> & Hc%Is_true_true & Hin). eauto.
  - intros (c & Hin & Hc & <-). exists c. by rewrite Hc.
Qed.

Lemma elem_of_bad_funcs tree parents name :
  name ∈ (naming_violations tree parents).2
  ↔ ∃ fn, fn ∈ walk tree ∧ is_FunctionDef fn = true
          ∧ _violates_snake (name_of fn) = true
          ∧ qualified_name parents fn = name.
Proof.
  simpl. rewrite elem_of_sorted_set, elem_of_list_to_set, list_elem_of_fmap.
  setoid_rewrite list_elem_of_filter. split.
  - intros (fn & -> & [Hf Hv]%andb_prop_elim & Hin). exists fn.
    apply Is_true_true in Hf, Hv. done.
  - intros (fn & Hin & Hf & Hv & <-). exists fn. split; [done|].
    split; [|done]. by rewrite Hf, Hv.
Qed.

Lemma elem_of_bad_classes tree parents name :
  name ∈ (naming_violations tree parents).1
  ↔ ∃ cls, cls ∈ walk tree ∧ is_ClassDef cls = true
           ∧ _violates_camel (name_of cls) = true ∧ name_of cls = name.
Proof.
  simpl. rewrite elem_of_sorted_set, elem_of_list_to_set, list_elem_of_fmap.
  setoid_rewrite list_elem_of_filter. split.
  - intros (c & -> & [Hc Hv]%andb_prop_elim & Hin). exists c.
    apply Is_true_true in Hc, Hv. done.
  - intros (c & Hin & Hc & Hv & <-). exists c. split; [done|].
    split; [|done]. by rewrite Hc, Hv.
Qed.

(** The findings stay inside the inventory: every class reported by
    the naming auditor is among the classes defined, and a function
    listed among the functions defined is reported by the naming
    auditor under that bare name exactly when the name breaks the
    rule, and by the annotation auditor when a function of that name
    outside classes is incomplete. *)
Theorem findings_within_inventory tree parents :
  (∀ name, name ∈ (naming_violations tree parents).1 →
           name ∈ classes_defined tree)
  ∧ (∀ name, name ∈ classes_defined tree →
             (name ∈ (naming_violations tree parents).1
              ↔ _violates_camel name = true))
  ∧ (∀ name, name ∈ functions_defined tree parents →
             _violates_snake name = true →
             name ∈ (naming_violations tree parents).2)
  ∧ (∀ fn, fn ∈ walk tree → is_FunctionDef fn = true →
           is_method fn parents = false → incomplete fn = true →
           name_of fn ∈ functions_defined tree parents
           ∧ name_of fn ∈ missing_type_annotations tree parents).
Proof.
  split; [|split; [|split]].
  - intros name (c & Hin & Hc & _ & Hn)%elem_of_bad_classes.
    apply elem_of_classes_defined. eauto.
  - intros name (c & Hin & Hc & Hn)%elem_of_classes_defined.
    rewrite elem_of_bad_classes. split.
    + by intros (c' & _ & _ & Hv & <-).
    + intros Hv. exists c. by rewrite Hn.
  - intros name (fn & Hin & Hf & Hm & Hn)%elem_of_functions_defined Hv.
    apply elem_of_bad_funcs. exists fn. unfold qualified_name.
    by rewrite Hm, Hn.
  - intros fn Hin Hf Hm Hi. split.
    + apply elem_of_functions_defined. eauto.
    + apply elem_of_missing_type_annotations. exists fn.
      unfold qualified_name. by rewrite Hm.
Qed.

Lemma findings_within_inventory_witness :
  "Foo"%string ∈ (naming_violations Sample.scenario
                    (build_parent_map Sample.scenario)).1
  ↔ _violates_camel "Foo" = true.
Proof.
  destruct (findings_within_inventory Sample.scenario
              (build_parent_map Sample.scenario)) as (_ & Hcls & _).
  apply (Hcls "Foo"%string). vm_compute. repeat constructor.
Defined.

(** The missing-annotation list is in ascending order and keeps
    repeats: it has as many entries as the tree has incomplete
    function nodes, so two incomplete functions of one name are listed
    twice. *)
Theorem missing_type_annotations_sorted_with_repeats tree parents :
  StronglySorted str_le (missing_type_annotations tree parents)
  ∧ length (missing_type_annotations tree parents)
    = length (filter (fun n => is_FunctionDef n && incomplete n) (walk tree))
  ∧ (missing_type_annotations tree parents = []
     ↔ ∀ fn, fn ∈ walk tree → is_FunctionDef fn = true →
             incomplete fn = false).
Proof.
  split; [apply sorted_is_sorted|]. split.
  - rewrite missing_type_annotations_Permutation. apply length_fmap.
  - split.
    + intros Hnil fn Hin Hf. apply not_true_is_false. intros Hi.
      assert (qualified_name parents fn
                ∈ missing_type_annotations tree parents) as Hq.
      { apply elem_of_missing_type_annotations. eauto. }
      rewrite Hnil in Hq. by apply elem_of_nil in Hq.
    + intros Hall.
      destruct (missing_type_annotations tree parents) as [|x l] eqn:Hm;
        [done|].
      assert (x ∈ missing_type_annotations tree parents) as Hx
        by (rewrite Hm; left).
      apply elem_of_missing_type_annotations in Hx
        as (fn & Hin & Hf & Hi & _).
      rewrite (Hall fn Hin Hf) in Hi. done.
Qed.

(** * The two naming conventions *)

Lemma isupper_lower_char c : Py.isupper (Py.lower_char c) = false.
Proof. each_char c; reflexivity. Qed.

Lemma chars_lower name :
  Py.chars (Py.lower name) = Py.lower_char <$> Py.chars name.
Proof. induction name as [|c s IH]; [done|]. simpl. by rewrite IH. Qed.

(** On the names of the tree model the lowercased name passes the
    snake-case test, lowercasing it again changes nothing, and a name
    passes the test exactly when lowercasing leaves it alone. *)
Lemma lower_settles_latin1 name :
  _violates_snake (Py.lower name) = false
  ∧ Py.lower (Py.lower name) = Py.lower name
  ∧ (_violates_snake name = false ↔ Py.lower name = name).
Proof.
  assert (_violates_snake (Py.lower name) = false) as Hlow.
  { rewrite violates_snake_upper, chars_lower. apply not_true_is_false.
    rewrite existsb_elem_of.
    intros (c & (c' & -> & _)%list_elem_of_fmap & Hup).
    by rewrite isupper_lower_char in Hup. }
  assert (∀ s, _violates_snake s = false ↔ Py.lower s = s) as Hfix.
  { intros s. rewrite violates_snake_upper, <- str_ne_lower.
    unfold Py.str_ne. rewrite negb_false_iff, String.eqb_eq. naive_solver. }
  split; [done|]. split; [by apply Hfix|apply Hfix].
Qed.

(** No name satisfies both conventions: a name that passes the class
    test starts with an uppercase character and so fails the function
    test. *)
Theorem conventions_exclude_each_other name :
  (_violates_camel name = false → _violates_snake name = true)
  ∧ (_violates_snake name = false → _violates_camel name = true).
Proof.
  assert (_violates_camel name = false → _violates_snake name = true) as H.
  { unfold _violates_camel. destruct name as [|c0 rest]; [done|].
    rewrite negb_false_iff, andb_true_iff. intros [Hup _].
    rewrite violates_snake_upper. simpl. by rewrite Hup. }
  split; [done|].
  intros Hs. destruct (_violates_camel name) eqn:Hc; [done|].
  rewrite (H eq_refl) in Hs. done.
Qed.

Lemma conventions_exclude_each_other_witness :
  _violates_snake "Foo" = true.
Proof.
  destruct (conventions_exclude_each_other "Foo") as [H _].
  apply H. reflexivity.
Defined.

(** * The shape of the report *)

Lemma truthy_app_l a b : Py.truthy a = true → Py.truthy (a ++ b)%string = true.
Proof. by destruct a. Qed.

Lemma truthy_app_r a b : Py.truthy b = true → Py.truthy (a ++ b)%string = true.
Proof. destruct a; [done|]. done. Qed.

Lemma truthy_join_nonempty sep xs :
  xs ≠ [] → Forall (fun x => Py.truthy x = true) xs →
  Py.truthy (Py.join sep xs) = true.
Proof.
  intros Hne Hall. destruct Hall as [|x xs Hx Hxs]; [done|].
  destruct xs as [|y xs]; [done|]. cbn [Py.join]. by apply truthy_app_l.
Qed.

Lemma fmt_truthy cleandoc parents n :
  Py.truthy (fmt cleandoc parents n) = true.
Proof.
  unfold fmt.
  destruct (get_docstring cleandoc n) as [d|]; [destruct (Py.truthy d)|];
    by apply truthy_app_r.
Qed.

Lemma sections_from_truthy cur ds rest :
  Forall (fun l => Py.truthy l = true) ds →
  sections_from cur (ds ++ rest) = sections_from (reverse ds ++ cur) rest.
Proof.
  intros Hall. revert cur. induction Hall as [|d ds Hd _ IH]; intros cur.
  - done.
  - cbn [app sections_from]. rewrite Hd, IH, reverse_cons.
    by rewrite <- app_assoc.
Qed.

Lemma annotation_line_truthy ms : Py.truthy (annotation_line ms) = true.
Proof. unfold annotation_line. by destruct ms. Qed.

Lemma naming_line_cases bc bf :
  naming_line bc bf
  = match bc, bf with
    | [], [] => "All names adhere to the specified conventions."%string
    | _ :: _, [] =>
        ("Classes not using CamelCase: " ++ Py.join ", " bc)%string
    | [], _ :: _ =>
        ("Functions/methods not using snake_case: " ++ Py.join ", " bf)%string
    | _ :: _, _ :: _ =>
        ("Classes not using CamelCase: " ++ Py.join ", " bc
         ++ String "010" ""
         ++ "Functions/methods not using snake_case: "
         ++ Py.join ", " bf)%string
    end.
Proof.
  by destruct bc as [|c bc], bf as [|f bf].
Qed.

Lemma naming_line_truthy bc bf : Py.truthy (naming_line bc bf) = true.
Proof. rewrite naming_line_cases. by destruct bc, bf. Qed.

Lemma report_lines_shape name total pk cl fn ds ms bc bf :
  report_lines name total pk cl fn ds ms bc bf
  = [ ("File analysed: " ++ name)%string;
      ("Total number of lines of code: " ++ pretty total)%string;
      ""%string; "File Structure"%string;
      ("Packages imported: "
         ++ (if nonempty pk then Py.join ", " pk else "None"))%string;
      ("Classes defined: "
         ++ (if nonempty cl then Py.join ", " cl else "None"))%string;
      ("Functions defined: "
         ++ (if nonempty fn then Py.join ", " fn else "None"))%string;
      ""%string; "DocStrings"%string ]
    ++ ds
    ++ [ ""%string; "Type Annotation Check"%string; annotation_line ms;
         ""%string; "Naming Convention Check"%string; naming_line bc bf ].
Proof. reflexivity. Qed.

Lemma sections_of_report_lines name total pk cl fn ds ms bc bf :
  Forall (fun d => Py.truthy d = true) ds →
  sections (report_lines name total pk cl fn ds ms bc bf)
  = [ [ ("File analysed: " ++ name)%string;
        ("Total number of lines of code: " ++ pretty total)%string ];
      [ "File Structure"%string;
        ("Packages imported: "
           ++ (if nonempty pk then Py.join ", " pk else "None"))%string;
        ("Classes defined: "
           ++ (if nonempty cl then Py.join ", " cl else "None"))%string;
        ("Functions defined: "
           ++ (if nonempty fn then Py.join ", " fn else "None"))%string ];
      "DocStrings"%string :: ds;
      [ "Type Annotation Check"%string; annotation_line ms ];
      [ "Naming Convention Check"%string; naming_line bc bf ] ].
Proof.
  intros Hds. rewrite report_lines_shape. unfold sections.
  cbn [app sections_from]. simpl Py.truthy. cbn iota.
  rewrite sections_from_truthy by done.
  cbn [sections_from]. simpl Py.truthy. cbn iota.
  rewrite annotation_line_truthy, naming_line_truthy.
  rewrite !reverse_app, !reverse_cons, reverse_involutive. reflexivity.
Qed.

(** Every report has the same five sections in the same order, each
    under its header: the file line and the line count, the three
    inventory lines, the documentation entries in the order of
    [docstring_entries], one annotation line and one naming line. *)
Theorem report_of_has_five_sections cleandoc name lines tree :
  let parents := build_parent_map tree in
  let body :=
    report_lines name (length lines) (packages_imported tree)
      (classes_defined tree) (functions_defined tree parents)
      (docstring_entries cleandoc tree parents)
      (missing_type_annotations tree parents)
      (naming_violations tree parents).1
      (naming_violations tree parents).2 in
  report_of cleandoc name lines tree = Py.join (String "010" "") body
  ∧ sections body
    = [ [ ("File analysed: " ++ name)%string;
          ("Total number of lines of code: " ++ pretty (length lines))%string ];
        [ "File Structure"%string;
          ("Packages imported: "
             ++ (if nonempty (packages_imported tree)
                 then Py.join ", " (packages_imported tree)
                 else "None"))%string;
          ("Classes defined: "
             ++ (if nonempty (classes_defined tree)
                 then Py.join ", " (classes_defined tree)
                 else "None"))%string;
          ("Functions defined: "
             ++ (if nonempty (functions_defined tree parents)
                 then Py.join ", " (functions_defined tree parents)
                 else "None"))%string ];
        "DocStrings"%string :: docstring_entries cleandoc tree parents;
        [ "Type Annotation Check"%string;
          annotation_line (missing_type_annotations tree parents) ];
        [ "Naming Convention Check"%string;
          naming_line (naming_violations tree parents).1
            (naming_violations tree parents).2 ] ].
Proof.
  intros parents body. split; [reflexivity|].
  apply sections_of_report_lines.
  unfold docstring_entries. apply Forall_fmap, Forall_forall.
  intros n _. apply fmt_truthy.
Qed.

Lemma nil_iff_no_elem {A} (l : list A) : l = [] ↔ ∀ x, x ∉ l.
Proof.
  split; [intros -> x; apply not_elem_of_nil|].
  destruct l as [|x l]; [done|]. intros H. destruct (H x). left.
Qed.

(** The compliance sentences are earned: the annotation line is the
    sentence of full coverage exactly when no function node of the
    tree is incomplete, and the naming line is the sentence of full
    adherence exactly when no class name and no function name of the
    tree breaks its rule.  When only one kind of name is in violation
    the naming line has that one line, with no blank line for the
    other. *)
Theorem compliance_sentences_are_earned tree parents :
  (annotation_line (missing_type_annotations tree parents)
   = "All functions and methods use type annotations."%string
   ↔ ∀ fn, fn ∈ walk tree → is_FunctionDef fn = true →
           incomplete fn = false)
  ∧ (naming_line (naming_violations tree parents).1
       (naming_violations tree parents).2
     = "All names adhere to the specified conventions."%string
     ↔ (∀ cls, cls ∈ walk tree → is_ClassDef cls = true →
               _violates_camel (name_of cls) = false)
       ∧ (∀ fn, fn ∈ walk tree → is_FunctionDef fn = true →
                _violates_snake (name_of fn) = false))
  ∧ (∀ bad_classes bad_funcs,
       naming_line bad_classes bad_funcs
       = match bad_classes, bad_funcs with
         | [], [] => "All names adhere to the specified conventions."%string
         | _ :: _, [] =>
             ("Classes not using CamelCase: "
              ++ Py.join ", " bad_classes)%string
         | [], _ :: _ =>
             ("Functions/methods not using snake_case: "
              ++ Py.join ", " bad_funcs)%string
         | _ :: _, _ :: _ =>
             ("Classes not using CamelCase: " ++ Py.join ", " bad_classes
              ++ String "010" ""
              ++ "Functions/methods not using snake_case: "
              ++ Py.join ", " bad_funcs)%string
         end).
Proof.
  split; [|split; [|apply naming_line_cases]].
  - transitivity (missing_type_annotations tree parents = []).
    + unfold annotation_line.
      destruct (missing_type_annotations tree parents); simpl; [done|].
      split; discriminate.
    + rewrite nil_iff_no_elem.
      setoid_rewrite elem_of_missing_type_annotations. split.
      * intros Hno fn Hin Hf. apply not_true_is_false. intros Hi.
        apply (Hno (qualified_name parents fn)). eauto.
      * intros Hall name (fn & Hin & Hf & Hi & _).
        rewrite (Hall fn Hin Hf) in Hi. done.
  - transitivity ((naming_violations tree parents).1 = []
                  ∧ (naming_violations tree parents).2 = []).
    + rewrite naming_line_cases.
      destruct (naming_violations tree parents).1,
        (naming_violations tree parents).2; simpl;
        split; try done; try discriminate; by intros [? ?].
    + rewrite !nil_iff_no_elem.
      setoid_rewrite elem_of_bad_classes. setoid_rewrite elem_of_bad_funcs.
      split.
      * intros [Hc Hf]. split.
        -- intros cls Hin Hcls. apply not_true_is_false. intros Hv.
           apply (Hc (name_of cls)). eauto 6.
        -- intros fn Hin Hfn. apply not_true_is_false. intros Hv.
           apply (Hf (qualified_name parents fn)). eauto 6.
      * intros [Hc Hf]. split.
        -- intros name (cls & Hin & Hcls & Hv & _).
           rewrite (Hc cls Hin Hcls) in Hv. done.
        -- intros name (fn & Hin & Hfn & Hv & _).
           rewrite (Hf fn Hin Hfn) in Hv. done.
Qed.

(** * The class-based checker against the functional one *)


Lemma structure_fold acc l :
  foldl StyleChecker.structure_step acc l
  = (acc.1.1 ++ (l ≫= packages_of), acc.1.2 ++ (l ≫= class_of),
     acc.2 ++ (l ≫= function_of)).
Proof.
  revert acc. induction l as [|x l IH]; intros [[pk cl] fn].
  - simpl. by rewrite !app_nil_r.
  - cbn [foldl]. rewrite IH. csimpl.
    destruct x as [[]| | |]; simpl; by rewrite <- ?app_assoc.
Qed.

Lemma bind_filter_name (P : ast → bool) l :
  l ≫= (fun x => if P x then [name_of x] else [])
  = name_of <$> filter (fun x => P x) l.
Proof.
  induction l as [|x l IH]; [done|]. csimpl. rewrite filter_cons, IH.
  by destruct (P x).
Qed.

Lemma structure_lists_eq tree :
  StyleChecker.structure_lists tree
  = (walk tree ≫= packages_of, class_names tree,
     name_of <$> filter (fun x => is_FunctionDef x) (walk tree)).
Proof.
  unfold StyleChecker.structure_lists. rewrite structure_fold. simpl.
  unfold class_names. by rewrite <- !bind_filter_name.
Qed.

Lemma elem_of_packages_of_Some x name :
  Some name ∈ packages_of x
  ↔ name ∈ import_names x
    ∨ ∃ i names level, x = ANode (ImportFrom i (Some name) names level).
Proof.
  destruct x as [[| | |i names|i m names level| | |]| | |]; simpl;
    try (split; [by intros ?%elem_of_nil|]);
    try (by intros [?%elem_of_nil|(? & ? & ? & [=])]).
  - rewrite list_elem_of_fmap. split.
    + intros (y & [= ->] & Hy). by left.
    + intros [H|(? & ? & ? & [=])]. eauto.
  - rewrite list_elem_of_singleton. split.
    + intros <-. right. eauto.
    + intros [?%elem_of_nil|(? & ? & ? & [= _ <- _ _])]; done.
Qed.

Lemma elem_of_packages_imported tree name :
  name ∈ packages_imported tree
  ↔ ∃ x, x ∈ walk tree
         ∧ (name ∈ import_names x ∨ name ∈ import_from_module x).
Proof.
  rewrite packages_imported_names.
  destruct (sorted_set_of_list (imported_names tree)) as (_ & _ & ->).
  unfold imported_names. rewrite elem_of_app, !list_elem_of_bind. split.
  - intros [(x & Hn & Hx)|(x & Hn & Hx)]; exists x; auto.
  - intros (x & Hx & [Hn|Hn]); [left|right]; eauto.
Qed.

(** The inventory of the class-based checker against the functional
    one: the same class names, with repeats and in walk order; every
    function name of the functional checker and the method names
    besides; every imported name of the functional checker, and in
    addition [None] for each from-import without a module. *)
Theorem structure_lists_against_inventory tree parents :
  classes_defined tree
  = sorted_set (list_to_set (StyleChecker.structure_lists tree).1.2)
  ∧ length (StyleChecker.structure_lists tree).1.2
    = length (filter (fun x => is_ClassDef x) (walk tree))
  ∧ (∀ name, name ∈ (StyleChecker.structure_lists tree).2
             ↔ ∃ fn, fn ∈ walk tree ∧ is_FunctionDef fn = true
                     ∧ name_of fn = name)
  ∧ (∀ name, name ∈ functions_defined tree parents →
             name ∈ (StyleChecker.structure_lists tree).2)
  ∧ (∀ name, name ∈ packages_imported tree →
             Some name ∈ (StyleChecker.structure_lists tree).1.1)
  ∧ (∀ name, Some name ∈ (StyleChecker.structure_lists tree).1.1 →
             name ≠ ""%string → name ∈ packages_imported tree)
  ∧ (None ∈ (StyleChecker.structure_lists tree).1.1
     ↔ ∃ i names level, ANode (ImportFrom i None names level) ∈ walk tree).
Proof.
  rewrite structure_lists_eq. cbn [fst snd].
  assert (∀ name,
            name ∈ name_of <$> filter (fun x => is_FunctionDef x) (walk tree)
            ↔ ∃ fn, fn ∈ walk tree ∧ is_FunctionDef fn = true
                    ∧ name_of fn = name) as Hfun.
  { intros name. rewrite list_elem_of_fmap.
    setoid_rewrite list_elem_of_filter. split.
    - intros (fn & -> & Hf%Is_true_true & Hin). eauto.
    - intros (fn & Hin & Hf & <-). exists fn. by rewrite Hf. }
  split; [done|]. split; [apply length_fmap|]. split; [done|].
  split; [|split; [|split]].
  - intros name (fn & Hin & Hf & _ & Hn)%elem_of_functions_defined.
    apply Hfun. eauto.
  - intros name (x & Hx & Hname)%elem_of_packages_imported.
    apply list_elem_of_bind. exists x. split; [|done].
    apply elem_of_packages_of_Some. destruct Hname as [H|H]; [by left|].
    apply elem_of_import_from_module in H as (i & names & level & -> & _).
    right. eauto.
  - intros name (x & Hx & Hin)%list_elem_of_bind Hne.
    apply elem_of_packages_imported. exists x. split; [done|].
    apply elem_of_packages_of_Some in Hx as [H|(i & names & level & ->)];
      [by left|].
    right. apply elem_of_import_from_module. eauto 6.
  - rewrite list_elem_of_bind. split.
    + intros (x & Hx & Hin).
      destruct x as [[| | |i names|i [m|] names level| | |]| | |];
        simpl in Hx; try (by apply elem_of_nil in Hx).
      * apply list_elem_of_fmap in Hx as (? & [=] & _).
      * by apply list_elem_of_singleton in Hx.
      * eauto.
    + intros (i & names & level & Hin). eexists. split; [|exact Hin].
      simpl. left.
Qed.

Lemma structure_lists_against_inventory_witness :
  "baz"%string ∈ (StyleChecker.structure_lists Sample.scenario).2
  ∧ "bar"%string ∈ (StyleChecker.structure_lists Sample.scenario).2.
Proof.
  destruct (structure_lists_against_inventory Sample.scenario
              (build_parent_map Sample.scenario))
    as (_ & _ & Hall & Hsub & _).
  split.
  - apply Hsub. vm_compute. repeat constructor.
  - apply Hall. exists (ANode Sample.bar). split; [|done].
    vm_compute. repeat constructor.
Defined.

Lemma annotations_fold acc l :
  foldl StyleChecker.annotations_step acc l = acc ++ (l ≫= missing_of).
Proof.
  revert acc. induction l as [|x l IH]; intros acc.
  - simpl. by rewrite app_nil_r.
  - cbn [foldl]. rewrite IH. csimpl. rewrite app_assoc. f_equal.
    destruct x as [[| |i name [] body dl [r|]| | | | |]| | |]; simpl;
      try (by rewrite app_nil_r);
      destruct (existsb annotation_is_None args); simpl;
      by rewrite ?app_nil_r, <- ?app_assoc.
Qed.

Lemma missing_of_spec x :
  (is_FunctionDef x && incomplete x = true →
   Forall (eq (name_of x)) (missing_of x)
   ∧ 1 ≤ length (missing_of x) ≤ 2)
  ∧ (is_FunctionDef x && incomplete x = false → missing_of x = []).
Proof.
  destruct x as [[| |i name [] body dl [r|]| | | | |]| | |]; simpl;
    try (split; [done|done]);
    destruct (existsb annotation_is_None args); simpl;
    (split; [intros Hyes|intros Hno]); try discriminate; try done;
    (split; [repeat apply Forall_cons_2; auto|lia]).
Qed.

Lemma missing_of_lengths l :
  length (filter (fun n => is_FunctionDef n && incomplete n) l)
    ≤ length (l ≫= missing_of)
  ∧ length (l ≫= missing_of)
    ≤ 2 * length (filter (fun n => is_FunctionDef n && incomplete n) l).
Proof.
  induction l as [|x l [IH1 IH2]]; [simpl; lia|].
  csimpl. rewrite filter_cons, length_app.
  destruct (missing_of_spec x) as [Hyes Hno].
  destruct (is_FunctionDef x && incomplete x) eqn:Hx.
  - destruct (Hyes eq_refl) as [_ Hlen]. simpl. lia.
  - rewrite (Hno eq_refl). simpl. lia.
Qed.

(** The class-based checker lists a function by its bare name once
    for a parameter without annotation and once more for a missing
    return annotation: its list has the names of the incomplete
    functions, each once or twice, so between one and two entries per
    entry of the functional checker, and the two checkers report full
    coverage for the same trees. *)
Theorem missing_annotations_against_functional tree parents :
  (∀ name, name ∈ StyleChecker.missing_annotations tree
           ↔ ∃ fn, fn ∈ walk tree ∧ is_FunctionDef fn = true
                   ∧ incomplete fn = true ∧ name_of fn = name)
  ∧ length (missing_type_annotations tree parents)
    ≤ length (StyleChecker.missing_annotations tree)
  ∧ length (StyleChecker.missing_annotations tree)
    ≤ 2 * length (missing_type_annotations tree parents)
  ∧ (StyleChecker.missing_annotations tree = []
     ↔ missing_type_annotations tree parents = []).
Proof.
  unfold StyleChecker.missing_annotations. rewrite annotations_fold.
  rewrite app_nil_l.
  pose proof (missing_of_lengths (walk tree)) as [Hlo Hhi].
  assert (length (missing_type_annotations tree parents)
          = length (filter (fun n => is_FunctionDef n && incomplete n)
                      (walk tree))) as Hlen.
  { rewrite missing_type_annotations_Permutation. apply length_fmap. }
  split; [|split; [lia|split; [lia|]]].
  - intros name. rewrite list_elem_of_bind. split.
    + intros (x & Hname & Hx). destruct (missing_of_spec x) as [Hyes Hno].
      destruct (is_FunctionDef x && incomplete x) eqn:Hfi.
      * destruct (Hyes eq_refl) as [Hall _].
        rewrite Forall_forall in Hall. apply andb_prop in Hfi as [Hf Hi].
        exists x. by rewrite (Hall name Hname).
      * rewrite (Hno eq_refl) in Hname. by apply elem_of_nil in Hname.
    + intros (fn & Hin & Hf & Hi & <-). exists fn. split; [|done].
      destruct (missing_of_spec fn) as [Hyes _].
      rewrite Hf, Hi in Hyes. destruct (Hyes eq_refl) as [Hall Hlen'].
      destruct (missing_of fn) as [|y ys]; [simpl in Hlen'; lia|].
      apply Forall_cons in Hall as [<- _]. left.
  - rewrite <- !length_zero_iff_nil. lia.
Qed.

Lemma naming_fold_None l : foldl StyleChecker.naming_step None l = None.
Proof. induction l as [|x l IH]; [done|]. exact IH. Qed.

Lemma naming_fold_Some cs fs l :
  Forall (fun x => nameless_class x = false) l →
  foldl StyleChecker.naming_step (Some (cs, fs)) l
  = Some (cs ++ (l ≫= bad_class_of), fs ++ (l ≫= bad_function_of)).
Proof.
  intros Hall. revert cs fs. induction Hall as [|x l Hx _ IH]; intros cs fs.
  - simpl. by rewrite !app_nil_r.
  - cbn [foldl]. csimpl. rewrite !app_assoc.
    destruct x as [[|i [|c0 rest]| | | | | |]| | |];
      try discriminate Hx; unfold bad_function_of; simpl;
      rewrite ?app_nil_r; try apply IH.
    + destruct (Py.isupper c0); simpl; rewrite ?app_nil_r; apply IH.
    + destruct (A1.function_violation name); simpl; rewrite ?app_nil_r;
        apply IH.
Qed.

Lemma naming_fold_raises acc l :
  Exists (fun x => nameless_class x = true) l →
  foldl StyleChecker.naming_step acc l = None.
Proof.
  intros Hex. revert acc. induction Hex as [x l Hx|x l _ IH]; intros acc.
  - cbn [foldl]. destruct acc as [[cs fs]|]; [|apply naming_fold_None].
    destruct x as [[|i [|c0 rest]| | | | | |]| | |]; try discriminate Hx.
    simpl. apply naming_fold_None.
  - cbn [foldl]. apply IH.
Qed.

Lemma nameless_class_spec x :
  nameless_class x = true ↔ is_ClassDef x = true ∧ name_of x = ""%string.
Proof.
  unfold nameless_class. rewrite andb_true_iff, negb_true_iff.
  destruct (name_of x); simpl; split; intros [? ?]; split; congruence.
Qed.

Lemma elem_of_bad_class_of x name :
  name ∈ bad_class_of x
  ↔ is_ClassDef x = true ∧ name_of x = name
    ∧ ∃ c0 rest, name = String c0 rest ∧ Py.isupper c0 = false.
Proof.
  destruct x as [[|i [|c0 rest]| | | | | |]| | |]; simpl;
    try (split; [by intros ?%elem_of_nil|by intros [? _]]).
  - split; [by intros ?%elem_of_nil|]. by intros (_ & <- & ? & ? & ? & _).
  - destruct (Py.isupper c0) eqn:Hup; simpl.
    + split; [by intros ?%elem_of_nil|].
      intros (_ & <- & ? & ? & [= <- <-] & ?). congruence.
    + rewrite list_elem_of_singleton. split.
      * intros ->. eauto 6.
      * by intros (_ & <- & _).
Qed.

(** The naming test of the class-based checker against the functional
    one.  It raises exactly when a class has an empty name.  Otherwise
    every class it reports is reported by the functional checker,
    which reports in addition only names holding an underscore, and
    every function name the functional checker finds in violation is
    in its function list, under the bare name. *)
Theorem naming_lists_against_functional tree parents :
  (StyleChecker.naming_lists tree = None
   ↔ ∃ cls, cls ∈ walk tree ∧ is_ClassDef cls = true
            ∧ name_of cls = ""%string)
  ∧ ∀ cs fs, StyleChecker.naming_lists tree = Some (cs, fs) →
      (∀ name, name ∈ cs → name ∈ (naming_violations tree parents).1)
      ∧ (∀ name, name ∈ (naming_violations tree parents).1 →
                 name ∈ cs ∨ Py.underscore ∈ Py.chars name)
      ∧ (∀ name, name ∈ fs
                 ↔ ∃ fn, fn ∈ walk tree ∧ is_FunctionDef fn = true
                         ∧ A1.function_violation (name_of fn) = true
                         ∧ name_of fn = name)
      ∧ (∀ fn, fn ∈ walk tree → is_FunctionDef fn = true →
               _violates_snake (name_of fn) = true → name_of fn ∈ fs).
Proof.
  unfold StyleChecker.naming_lists.
  destruct (decide (Exists (fun x => nameless_class x = true) (walk tree)))
    as [Hex|Hnex].
  - rewrite (naming_fold_raises _ _ Hex). split; [|done].
    split; [intros _|done].
    apply Exists_exists in Hex as (x & Hin & [Hc Hn]%nameless_class_spec).
    eauto.
  - assert (Forall (fun x => nameless_class x = false) (walk tree)) as Hall.
    { apply Forall_forall. intros x Hin. apply not_true_is_false.
      intros Hx. apply Hnex, Exists_exists. eauto. }
    rewrite (naming_fold_Some [] [] _ Hall), !app_nil_l. split.
    { split; [done|]. intros (cls & Hin & Hc & Hn). exfalso.
      apply Hnex, Exists_exists. exists cls. split; [done|].
      by apply nameless_class_spec. }
    intros cs fs [= <- <-].
    assert (∀ name, name ∈ walk tree ≫= bad_function_of
                    ↔ ∃ fn, fn ∈ walk tree ∧ is_FunctionDef fn = true
                            ∧ A1.function_violation (name_of fn) = true
                            ∧ name_of fn = name) as Hfs.
    { intros name. rewrite list_elem_of_bind. unfold bad_function_of. split.
      - intros (fn & Hname & Hin).
        destruct (is_FunctionDef fn) eqn:Hf,
          (A1.function_violation (name_of fn)) eqn:Hv; simpl in Hname;
          try (by apply elem_of_nil in Hname).
        apply list_elem_of_singleton in Hname as ->. eauto.
      - intros (fn & Hin & Hf & Hv & <-). exists fn.
        rewrite Hf, Hv. split; [left|done]. }
    split; [|split; [|split; [exact Hfs|]]].
    + intros name (x & Hname & Hin)%list_elem_of_bind.
      apply elem_of_bad_class_of in Hname
        as (Hc & Hn & c0 & rest & -> & Hup).
      apply elem_of_bad_classes. exists x. repeat split; try done.
      rewrite Hn. unfold _violates_camel. by rewrite Hup.
    + intros name (x & Hin & Hc & Hv & <-)%elem_of_bad_classes.
      destruct (name_of x) as [|c0 rest] eqn:Hn.
      { exfalso. apply Hnex, Exists_exists. exists x. split; [done|].
        by apply nameless_class_spec. }
      destruct (Py.isupper c0) eqn:Hup.
      * right. unfold _violates_camel in Hv. rewrite Hup in Hv.
        simpl in Hv. apply negb_true_iff, negb_false_iff in Hv.
        unfold Py.contains in Hv.
        apply existsb_elem_of in Hv as (c & Hcin & ->%Ascii.eqb_eq). done.
      * left. apply list_elem_of_bind. exists x. split; [|done].
        apply elem_of_bad_class_of. rewrite Hn. eauto 8.
    + intros fn Hin Hf Hv. apply Hfs. exists fn. repeat split; try done.
      by apply snake_violation_is_a1_violation.
Qed.

Lemma naming_lists_against_functional_witness :
  StyleChecker.naming_lists naming_case = Some (["foo_bar"], ["DoThing"])%string
  ∧ "foo_bar"%string ∈ (naming_violations naming_case
                          (build_parent_map naming_case)).1.
Proof.
  destruct (naming_lists_against_functional naming_case
              (build_parent_map naming_case)) as [_ Hsome].
  destruct (Hsome ["foo_bar"%string] ["DoThing"%string]) as (Hcs & _);
    [reflexivity|].
  split; [reflexivity|]. apply Hcs. left.
Defined.

(** * Parent attributes of the class-based checker *)

Lemma dict_of_pairs_attach ps :
  dict_of_pairs ps
  = Some <$> foldl (fun attrs cp => <[nid cp.1 := cp.2]> attrs) ∅ ps.
Proof.
  unfold dict_of_pairs. induction ps as [|cp ps IH] using rev_ind.
  - simpl. by rewrite fmap_empty.
  - rewrite !foldl_snoc, IH. by rewrite fmap_insert.
Qed.

Lemma build_parent_map_attach tree k :
  k ≠ nid tree →
  build_parent_map tree !! k = Some <$> StyleChecker.attach_parents tree !! k.
Proof.
  intros Hk. unfold build_parent_map, dict_or, StyleChecker.attach_parents.
  rewrite lookup_union_r by by apply lookup_singleton_ne.
  by rewrite dict_of_pairs_attach, lookup_fmap.
Qed.

(** The [parent] attributes that [attach_parents] sets are the
    entries of the functional checker's parent map: away from the
    root the two agree key by key, and a function node is a method for
    the functional checker exactly when its [parent] attribute is a
    class.  The root gets no attribute unless it also occurs as a
    child; the parent map has it under none in either case. *)
Theorem attach_parents_agrees_with_parent_map tree :
  (∀ k, k ≠ nid tree →
        build_parent_map tree !! k
        = Some <$> StyleChecker.attach_parents tree !! k)
  ∧ (∀ x, nid x ≠ nid tree →
          is_method x (build_parent_map tree)
          = from_option is_ClassDef false
              (StyleChecker.attach_parents tree !! nid x))
  ∧ (well_formed tree → StyleChecker.attach_parents tree !! nid tree = None).
Proof.
  split; [apply build_parent_map_attach|]. split.
  - intros x Hx. unfold is_method. rewrite build_parent_map_attach by done.
    destruct (StyleChecker.attach_parents tree !! nid x) as [p|]; [|done].
    by destruct p as [[]| | |].
  - intros [Hroot _]%well_formed_children.
    destruct (StyleChecker.attach_parents tree !! nid tree) as [p|] eqn:Hp;
      [|done].
    exfalso. apply Hroot.
    assert (dict_of_pairs (child_parent_pairs tree) !! nid tree
            = Some (Some p)) as Hd.
    { rewrite dict_of_pairs_attach, lookup_fmap.
      unfold StyleChecker.attach_parents in Hp. by rewrite Hp. }
    apply dict_of_pairs_lookup_Some in Hd as (c & q & Hin & Hk & _).
    apply elem_of_child_parent_pairs in Hin as [Hq Hc].
    rewrite <- Hk. apply list_elem_of_fmap_2, list_elem_of_bind. eauto.
Qed.

Lemma attach_parents_agrees_with_parent_map_witness :
  StyleChecker.attach_parents Sample.scenario !! nid Sample.scenario = None.
Proof.
  destruct (attach_parents_agrees_with_parent_map Sample.scenario)
    as (_ & _ & Hroot).
  apply Hroot. apply (bool_decide_unpack _). vm_compute. exact I.
Defined.

Lemma attach_parents_child tree p c :
  p ∈ walk tree → c ∈ iter_child_nodes p →
  is_Some (StyleChecker.attach_parents tree !! nid c).
Proof.
  intros Hp Hc.
  assert (is_Some (dict_of_pairs (child_parent_pairs tree) !! nid c)) as Hd.
  { apply elem_of_dom. rewrite dict_of_pairs_list_to_map, dom_list_to_map_L.
    apply elem_of_list_to_set. rewrite fmap_reverse, elem_of_reverse.
    apply list_elem_of_fmap. exists (nid c, Some p). split; [done|].
    apply list_elem_of_fmap. exists (c, p). split; [done|].
    by apply elem_of_child_parent_pairs. }
  rewrite dict_of_pairs_attach, lookup_fmap in Hd.
  unfold StyleChecker.attach_parents.
  destruct Hd as [v Hv]. by destruct (foldl _ _ _ !! nid c).
Qed.

Lemma mapM_mjoin_length {A B} (f : A → option (list B)) (P : A → bool) l k :
  (∀ x y, f x = Some y → length y = if P x then 1 else 0) →
  mapM f l = Some k →
  length (mjoin k) = length (filter (fun x => P x) l).
Proof.
  intros Hf Hk. apply mapM_Some_1 in Hk.
  induction Hk as [|x y l k Hxy _ IH]; [done|].
  csimpl. rewrite length_app, filter_cons, IH, (Hf x y Hxy).
  by destruct (P x).
Qed.

Lemma docstring_line_length cleandoc attrs x y :
  StyleChecker.docstring_line cleandoc attrs x = Some y →
  length y = if is_ClassDef x || is_FunctionDef x then 1 else 0.
Proof.
  unfold StyleChecker.docstring_line. rewrite (orb_comm (is_ClassDef x)).
  destruct (is_FunctionDef x || is_ClassDef x); [|by intros [= <-]].
  destruct (is_FunctionDef x); simpl.
  - destruct (attrs !! nid x); simpl; [by intros [= <-]|done].
  - by intros [= <-].
Qed.

Lemma check_docstrings_attached cleandoc tree parents :
  is_FunctionDef tree = false →
  ∃ out, StyleChecker._check_docstrings cleandoc
           (StyleChecker.attach_parents tree) tree = Some out
         ∧ length out = length (docstring_entries cleandoc tree parents).
Proof.
  intros Hroot.
  assert (is_Some (mapM (StyleChecker.docstring_line cleandoc
                           (StyleChecker.attach_parents tree))
                     (walk tree))) as [k Hk].
  { apply mapM_is_Some_2, Forall_forall. intros x Hx. simpl.
    unfold StyleChecker.docstring_line.
    destruct (is_FunctionDef x || is_ClassDef x); [|done].
    destruct (is_FunctionDef x) eqn:Hf; [|done].
    destruct (walk_parent tree x Hx) as [->|(p & Hp & Hc)]; [congruence|].
    destruct (attach_parents_child tree p x Hp Hc) as [q ->]. done. }
  exists (mjoin k). unfold StyleChecker._check_docstrings. rewrite Hk.
  split; [done|]. unfold docstring_entries. rewrite length_fmap.
  eapply mapM_mjoin_length; [|exact Hk].
  intros x y. apply docstring_line_length.
Qed.

Lemma check_docstrings_unattached cleandoc tree :
  StyleChecker._check_docstrings cleandoc ∅ tree = None
  ↔ ∃ fn, fn ∈ walk tree ∧ is_FunctionDef fn = true.
Proof.
  unfold StyleChecker._check_docstrings.
  rewrite fmap_None, mapM_None, Exists_exists. split.
  - intros (x & Hx & Hnone). exists x. split; [done|].
    unfold StyleChecker.docstring_line in Hnone.
    destruct (is_FunctionDef x); [done|].
    by destruct (is_ClassDef x).
  - intros (fn & Hin & Hf). exists fn. split; [done|].
    unfold StyleChecker.docstring_line. rewrite Hf. simpl.
    by rewrite lookup_empty.
Qed.

(** [_check_docstrings] reads [node.parent] on every function node.
    After [attach_parents] it goes through for every tree whose root
    is not itself a function, and gives as many lines as the
    functional checker gives entries; with no attribute set it raises
    as soon as the tree has a function. *)
Theorem check_docstrings_needs_attach_parents cleandoc tree parents :
  (is_FunctionDef tree = false →
   ∃ out, StyleChecker._check_docstrings cleandoc
            (StyleChecker.attach_parents tree) tree = Some out
          ∧ length out = length (docstring_entries cleandoc tree parents))
  ∧ (StyleChecker._check_docstrings cleandoc ∅ tree = None
     ↔ ∃ fn, fn ∈ walk tree ∧ is_FunctionDef fn = true).
Proof.
  split; [apply check_docstrings_attached|apply check_docstrings_unattached].
Qed.

Lemma check_docstrings_needs_attach_parents_witness :
  ∃ out, StyleChecker._check_docstrings id
           (StyleChecker.attach_parents Sample.scenario) Sample.scenario
         = Some out
         ∧ length out
           = length (docstring_entries id Sample.scenario
                       (build_parent_map Sample.scenario)).
Proof.
  destruct (check_docstrings_needs_attach_parents id Sample.scenario
              (build_parent_map Sample.scenario)) as [Hok _].
  apply Hok. reflexivity.
Defined.

(** [generate_report] writes a report when the parent attributes were
    attached, the root is not a function and every class has a name;
    run on a tree with a function before [attach_parents], it raises
    and writes nothing. *)
Theorem generate_report_needs_attach_parents cleandoc repr lines tree :
  (is_FunctionDef tree = false →
   (∀ cls, cls ∈ walk tree → is_ClassDef cls = true →
           name_of cls ≠ ""%string) →
   is_Some (StyleChecker.generate_report cleandoc repr
              (StyleChecker.attach_parents tree) lines tree))
  ∧ ((∃ fn, fn ∈ walk tree ∧ is_FunctionDef fn = true) →
     StyleChecker.generate_report cleandoc repr ∅ lines tree = None).
Proof.
  unfold StyleChecker.generate_report. split.
  - intros Hroot Hnames.
    destruct (check_docstrings_attached cleandoc tree ∅ Hroot)
      as (out & -> & _).
    unfold StyleChecker._check_naming_conventions, StyleChecker.naming_lists.
    rewrite (naming_fold_Some [] []); [by eexists|].
    apply Forall_forall. intros x Hx. apply not_true_is_false.
    intros [Hc Hn]%nameless_class_spec. by apply (Hnames x).
  - intros Hfn.
    by rewrite (proj2 (check_docstrings_unattached cleandoc tree) Hfn).
Qed.

Lemma generate_report_needs_attach_parents_witness :
  is_Some (StyleChecker.generate_report id (fun _ => ""%string)
             (StyleChecker.attach_parents Sample.scenario) []
             Sample.scenario)
  ∧ StyleChecker.generate_report id (fun _ => ""%string) ∅ []
      Sample.scenario = None.
Proof.
  destruct (generate_report_needs_attach_parents id (fun _ => ""%string) []
              Sample.scenario) as [Hok Hraise].
  split.
  - apply Hok; [reflexivity|]. intros cls Hin Hcls.
    vm_compute in Hin.
    repeat (apply elem_of_cons in Hin as [->|Hin];
            [try discriminate Hcls; discriminate|]).
    by apply elem_of_nil in Hin.
  - apply Hraise. exists (ANode Sample.baz). split; [|reflexivity].
    vm_compute. repeat constructor.
Defined.

(** * Names over all of Unicode *)

Lemma isupper_latin1 c : Unicode.isupper (N_of_ascii c) = Py.isupper c.
Proof. each_char c; vm_compute; reflexivity. Qed.

Lemma islower_latin1 c : Unicode.islower (N_of_ascii c) = Py.islower c.
Proof. each_char c; vm_compute; reflexivity. Qed.

Lemma to_lower_full_latin1 c :
  Unicode.to_lower_full (N_of_ascii c) = [N_of_ascii (Py.lower_char c)].
Proof. each_char c; vm_compute; reflexivity. Qed.

Lemma N_of_ascii_lt c : (N_of_ascii c < 256)%N.
Proof. each_char c; vm_compute; reflexivity. Qed.

Lemma lower_ucs4_latin1 before c after :
  Unicode.lower_ucs4 before (N_of_ascii c) after
  = [N_of_ascii (Py.lower_char c)].
Proof.
  unfold Unicode.lower_ucs4.
  destruct (N.eqb_spec (N_of_ascii c) 0x3A3) as [Heq|_].
  - pose proof (N_of_ascii_lt c). lia.
  - apply to_lower_full_latin1.
Qed.

Lemma do_lower_of_string before s :
  Unicode.do_lower before (Unicode.of_string s)
  = Unicode.of_string (Py.lower s).
Proof.
  revert before. induction s as [|c s IH]; intros before; [done|].
  unfold Unicode.of_string in *. cbn [Py.chars Py.lower fmap list_fmap].
  cbn [Unicode.do_lower]. rewrite lower_ucs4_latin1, IH. done.
Qed.

Lemma lower_of_string s :
  Unicode.lower (Unicode.of_string s) = Unicode.of_string (Py.lower s).
Proof. apply do_lower_of_string. Qed.

Lemma of_string_inj s1 s2 :
  Unicode.of_string s1 = Unicode.of_string s2 → s1 = s2.
Proof.
  revert s2. induction s1 as [|c1 s1 IH]; intros [|c2 s2]; try done.
  unfold Unicode.of_string. cbn [Py.chars fmap list_fmap].
  intros [= Hc Hs]. f_equal.
  - rewrite <- (ascii_N_embedding c1), <- (ascii_N_embedding c2). by rewrite Hc.
  - by apply IH.
Qed.

Lemma of_string_latin1 (name : list N) :
  Forall (fun c => (c < 256)%N) name → ∃ s, name = Unicode.of_string s.
Proof.
  induction 1 as [|c name Hc _ [s ->]]; [by exists ""%string|].
  exists (String (ascii_of_N c) s). unfold Unicode.of_string.
  cbn [Py.chars fmap list_fmap]. f_equal.
  symmetry. by apply N_ascii_embedding.
Qed.

Lemma of_string_latin1_2 s :
  Forall (fun c => (c < 256)%N) (Unicode.of_string s).
Proof.
  unfold Unicode.of_string. apply Forall_fmap, Forall_forall.
  intros c _. apply N_of_ascii_lt.
Qed.

Lemma existsb_fmap {A B} (f : B → bool) (g : A → B) l :
  existsb f (g <$> l) = existsb (fun x => f (g x)) l.
Proof. induction l as [|x l IH]; [done|]. simpl. by f_equal. Qed.

Lemma existsb_ext_in {A} (f g : A → bool) l :
  (∀ x, f x = g x) → existsb f l = existsb g l.
Proof. intros H. induction l as [|x l IH]; [done|]. simpl. by rewrite H, IH. Qed.

(** On the strings of the 8-bit model the test over all of Unicode is
    the test of the tree model. *)
Lemma violates_snake_of_string s :
  Unicode._violates_snake (Unicode.of_string s) = _violates_snake s.
Proof.
  rewrite violates_snake_upper. unfold Unicode._violates_snake.
  rewrite lower_of_string.
  assert (existsb Unicode.isupper
            (filter (fun c => c ≠ Unicode.underscore) (Unicode.of_string s))
          = existsb Py.isupper (Py.chars s)) as ->.
  { unfold Unicode.of_string.
    induction (Py.chars s) as [|c l IH]; [done|].
    cbn [fmap list_fmap]. rewrite filter_cons. case_decide as Hc.
    - cbn [existsb]. fold (@fmap list _ _ _ N_of_ascii l).
      by rewrite IH, isupper_latin1.
    - fold (@fmap list _ _ _ N_of_ascii l). rewrite IH. cbn [existsb].
      assert (c = Py.underscore) as ->; [|done].
      rewrite <- (ascii_N_embedding c).
      destruct (decide (N_of_ascii c = Unicode.underscore)) as [->|]; done. }
  rewrite <- str_ne_lower. unfold Py.str_ne.
  destruct (String.eqb_spec s (Py.lower s)) as [Heq|Hne]; simpl.
  - rewrite bool_decide_eq_true_2; [done|]. by rewrite <- Heq.
  - rewrite bool_decide_eq_false_2; [done|].
    by intros ?%of_string_inj.
Qed.

Lemma lookup_lower_moves tab c c' :
  forallb (fun row : N * N * N * N =>
             let '(lo, _, _, target) := row in negb (N.eqb target lo)) tab
  = true →
  Unicode.lookup_lower tab c = Some c' → c' ≠ c.
Proof.
  induction tab as [|[[[lo hi] step] target] tab IH]; [done|].
  cbn [forallb Unicode.lookup_lower].
  intros [Hrow Htab]%andb_prop.
  destruct (N.leb lo c && N.leb c hi && N.eqb ((c - lo) mod step) 0)%N
    eqn:Hin; [|by apply IH].
  intros [= <-]. apply negb_true_iff, N.eqb_neq in Hrow.
  apply andb_prop in Hin as [[Hlo%N.leb_le _]%andb_prop _]. lia.
Qed.

(** One character either stays or has a lowercase that starts with
    another character. *)
Lemma lower_ucs4_head before c after :
  Unicode.lower_ucs4 before c after = [c]
  ∨ ∃ c' rest, Unicode.lower_ucs4 before c after = c' :: rest ∧ c' ≠ c.
Proof.
  unfold Unicode.lower_ucs4.
  destruct (N.eqb_spec c 0x3A3) as [->|Hsigma].
  - right. eexists _, []. split; [done|].
    unfold Unicode.handle_capital_sigma.
    by destruct (match Unicode.skip_ignorable before with
                 | [] => false | _ => _ end).
  - unfold Unicode.to_lower_full.
    destruct (N.eqb_spec c 0x130) as [->|_]; [right; by eexists _, _|].
    destruct (Unicode.lookup_lower Unicode.lowercase_table c) as [c'|] eqn:Hc;
      [right|by left].
    exists c', []. split; [done|].
    by apply (lookup_lower_moves Unicode.lowercase_table c c').
Qed.

(** Whether a character changes does not depend on what surrounds
    it; only which sigma a capital sigma becomes does. *)
Lemma lower_ucs4_changes before c after :
  Unicode.lower_ucs4 before c after ≠ [c]
  ↔ Unicode.lower_ucs4 [] c [] ≠ [c].
Proof.
  unfold Unicode.lower_ucs4.
  destruct (N.eqb_spec c 0x3A3) as [->|_]; [|done].
  unfold Unicode.handle_capital_sigma.
  by destruct (match Unicode.skip_ignorable before with
               | [] => false | _ => _ end).
Qed.

Lemma regular_spec before c after :
  Unicode.regular c = true →
  Unicode.isupper c = true ↔ Unicode.lower_ucs4 before c after ≠ [c].
Proof.
  unfold Unicode.regular. rewrite bool_decide_eq_true.
  intros ->. symmetry. apply lower_ucs4_changes.
Qed.

Lemma do_lower_fixed before s :
  Forall (fun c => Unicode.regular c = true) s →
  Unicode.do_lower before s = s ↔ ∀ c, c ∈ s → Unicode.isupper c = false.
Proof.
  intros Hreg. revert before.
  induction Hreg as [|c s Hc _ IH]; intros before.
  - split; [intros _ c []%elem_of_nil|done].
  - cbn [Unicode.do_lower].
    pose proof (regular_spec before c s Hc) as Hup.
    destruct (lower_ucs4_head before c s) as [Hsame|(c' & r & Hmove & Hne)].
    + rewrite Hsame. cbn [app].
      assert (Unicode.isupper c = false) as Hnot.
      { apply not_true_is_false. rewrite Hup. by intros []. }
      split.
      * intros [= Hrest] x [->|Hx]%elem_of_cons; [done|].
        by apply (IH (c :: before)).
      * intros Hall. f_equal. apply IH. intros x Hx. apply Hall. by right.
    + assert (Unicode.isupper c = true) as Hyes.
      { apply Hup. rewrite Hmove. by intros [= -> _]. }
      rewrite Hmove. split.
      * intros [= Heq _]. done.
      * intros Hall. rewrite (Hall c) in Hyes; [done|left].
    Qed.

Lemma regular_latin1 c : (c < 256)%N → Unicode.regular c = true.
Proof.
  intros Hc. rewrite <- (N_ascii_embedding c Hc).
  generalize (ascii_of_N c). intros a. each_char a; vm_compute; reflexivity.
Qed.

Lemma snake_disjuncts_regular name :
  Forall (fun c => Unicode.regular c = true) name →
  (name ≠ Unicode.lower name
   ↔ ∃ c, c ∈ name ∧ c ≠ Unicode.underscore ∧ Unicode.isupper c = true)
  ∧ negb (bool_decide (name = Unicode.lower name))
    = existsb Unicode.isupper
        (filter (fun c => c ≠ Unicode.underscore) name).
Proof.
  intros Hreg.
  assert (name ≠ Unicode.lower name
          ↔ ∃ c, c ∈ name ∧ c ≠ Unicode.underscore
                 ∧ Unicode.isupper c = true) as Hiff.
  { unfold Unicode.lower. split.
    - intros Hne.
      destruct (existsb Unicode.isupper name) eqn:Hex.
      + apply existsb_elem_of in Hex as (c & Hin & Hup). exists c.
        split; [done|]. split; [|done]. by intros ->.
      + exfalso. apply Hne. symmetry. apply do_lower_fixed; [done|].
        intros c Hin. apply not_true_is_false. intros Hup.
        assert (existsb Unicode.isupper name = true); [|congruence].
        apply existsb_elem_of. eauto.
    - intros (c & Hin & _ & Hup) Heq. symmetry in Heq.
      rewrite do_lower_fixed in Heq by done.
      rewrite (Heq c Hin) in Hup. done. }
  split; [done|].
  destruct (existsb Unicode.isupper
              (filter (fun c => c ≠ Unicode.underscore) name)) eqn:Hex.
  - apply negb_true_iff, bool_decide_eq_false, Hiff.
    apply existsb_elem_of in Hex as (c & [Hc Hin]%list_elem_of_filter & Hup).
    eauto.
  - apply negb_false_iff, bool_decide_eq_true.
    destruct (decide (name = Unicode.lower name)) as [|Hne]; [done|].
    apply Hiff in Hne as (c & Hin & Hc & Hup).
    assert (existsb Unicode.isupper
              (filter (fun c => c ≠ Unicode.underscore) name) = true);
      [|congruence].
    apply existsb_elem_of. exists c. split; [|done].
    by apply list_elem_of_filter.
Qed.

(** C3: the two formulations of the function-naming rule agree on
    every name whose characters are each uppercase exactly when
    lowercasing changes them: the name differs from its lowercased
    form exactly when one of its characters other than underscores is
    uppercase.  Every character below U+0100 is of that kind, so
    every ASCII name is covered, and on those names the test is the
    one the naming auditor applies.  [getValue] is a violation,
    [get_value] is not. *)
Theorem snake_formulations_agree_on_regular_names (name : list N) :
  Forall (fun c => Unicode.regular c = true) name →
  (name ≠ Unicode.lower name
   ↔ ∃ c, c ∈ name ∧ c ≠ Unicode.underscore ∧ Unicode.isupper c = true)
  ∧ negb (bool_decide (name = Unicode.lower name))
    = existsb Unicode.isupper
        (filter (fun c => c ≠ Unicode.underscore) name)
  ∧ (∀ c, (c < 256)%N → Unicode.regular c = true)
  ∧ (∀ s, Unicode._violates_snake (Unicode.of_string s) = _violates_snake s)
  ∧ Unicode._violates_snake (Unicode.of_string "getValue") = true
  ∧ Unicode._violates_snake (Unicode.of_string "get_value") = false.
Proof.
  intros Hreg. destruct (snake_disjuncts_regular name Hreg) as [H1 H2].
  split; [done|]. split; [done|]. split; [apply regular_latin1|].
  split; [apply violates_snake_of_string|].
  by rewrite !violates_snake_of_string.
Qed.

Lemma snake_formulations_agree_on_regular_names_witness :
  Unicode.of_string "getValue" ≠ Unicode.lower (Unicode.of_string "getValue")
  ↔ ∃ c, c ∈ Unicode.of_string "getValue" ∧ c ≠ Unicode.underscore
         ∧ Unicode.isupper c = true.
Proof.
  apply (snake_formulations_agree_on_regular_names
           (Unicode.of_string "getValue")).
  eapply Forall_impl; [apply of_string_latin1_2|].
  intros c Hc. by apply regular_latin1.
Defined.

(** The name U+1F88, a title-case Greek letter that Python accepts as
    an identifier, differs from its lowercased form U+1F80 and has no
    uppercase character; the name U+03D2 is an uppercase character
    that lowercasing leaves alone. *)
Lemma snake_formulations_differ :
  ([0x1F88%N] ≠ Unicode.lower [0x1F88%N]
   ∧ ¬ ∃ c, c ∈ [0x1F88%N] ∧ c ≠ Unicode.underscore
            ∧ Unicode.isupper c = true)
  ∧ (Unicode.lower [0x3D2%N] = [0x3D2%N]
     ∧ ∃ c, c ∈ [0x3D2%N] ∧ c ≠ Unicode.underscore
            ∧ Unicode.isupper c = true).
Proof.
  split; split.
  - vm_compute. discriminate.
  - intros (c & ->%list_elem_of_singleton & _ & Hup). vm_compute in Hup.
    discriminate.
  - vm_compute. reflexivity.
  - exists 0x3D2%N. split; [left|]. split; [|vm_compute; reflexivity].
    vm_compute. discriminate.
Qed.

(** Lowercasing settles a name over the code points below U+0100: the
    lowercased name passes the snake-case test, lowercasing it again
    changes nothing, and the name passes the test exactly when
    lowercasing leaves it alone.  Beyond that range this can fail:
    U+03D2 is its own lowercase and still uppercase. *)
Theorem lower_satisfies_snake (name : list N) :
  Forall (fun c => (c < 256)%N) name →
  Unicode._violates_snake (Unicode.lower name) = false
  ∧ Unicode.lower (Unicode.lower name) = Unicode.lower name
  ∧ (Unicode._violates_snake name = false ↔ Unicode.lower name = name)
  ∧ Unicode._violates_snake (Unicode.lower [0x3D2%N]) = true.
Proof.
  intros [s ->]%of_string_latin1.
  destruct (lower_settles_latin1 s) as (Hpass & Hidem & Hiff).
  rewrite !lower_of_string, !violates_snake_of_string, Hidem.
  split; [done|]. split; [done|]. split; [|by vm_compute].
  rewrite Hiff. split; [by intros ->|apply of_string_inj].
Qed.

Lemma lower_satisfies_snake_witness :
  Unicode._violates_snake (Unicode.lower (Unicode.of_string "getValue"))
  = false.
Proof.
  destruct (lower_satisfies_snake (Unicode.of_string "getValue"))
    as [H _]; [|exact H].
  apply of_string_latin1_2.
Defined.
